(** * Face matching and enrollment engine: a shallow embedding

    The development follows the Python sources file by file:

    - [Database]  : [database_manager.py], the SQLite gallery store;
    - [Embedding] : [face_recognition_engine.py], matching by embedding
                    distance (strategy A);
    - [LBPH]      : [face_recognition_engine_opencv.py], matching by the
                    histogram classifier (strategy B);
    - [App]       : the enrollment part of [main.py].

    Python floats are read as rationals ([Q]); identifiers handed out by
    SQLite are integers ([Z]); [len] and [COUNT] results are naturals.
    Everything the program obtains from a third-party library (face
    detector, encoder, distance, classifier) is a section variable; the
    readings of the clock are arguments of the operations that take
    them. Widgets, drawing, logging and threads are left out. *)

From Stdlib Require Import ZArith QArith Qabs Lia Lqa.
From stdpp Require Import base list gmap strings option.
From Stdlib Require Import Ascii.

Open Scope Q_scope.

(** ** Python helpers *)

(** [max(0, x)]: Python returns the first maximal argument, so [x] is
    returned only when it is strictly greater than [0]. *)
Definition pymax0 (x : Q) : Q := if Qlt_le_dec 0 x then x else 0.

(** The sentinel both engines use for a face that is not accepted. *)
Definition Unknown : string := "Unknown".

(** ** database_manager.py *)

Module Database.

Section Store.
(** [Blob] is the pickled payload; [pickle.loads (pickle.dumps x) = x],
    so the column holds the payload itself. *)
Context {Blob : Type}.

(** A row of [persons (id, name UNIQUE, registered_date)]. *)
Record person_row := PersonRow {
  p_id : Z;
  p_name : string;
  p_registered_date : string
}.

(** A row of [face_encodings (id, person_id, encoding, captured_date)]. *)
Record encoding_row := EncodingRow {
  e_id : Z;
  e_person_id : Z;
  e_encoding : Blob;
  e_captured_date : string
}.

(** The two tables in rowid order, and for each the largest rowid ever
    handed out (both keys are AUTOINCREMENT, kept by SQLite in
    [sqlite_sequence]: a rowid is never reused, not even after a
    DELETE). *)
Record DatabaseManager := Db {
  persons : list person_row;
  face_encodings : list encoding_row;
  seq_persons : Z;
  seq_face_encodings : Z
}.

(** [__init__] on a fresh file: [_create_tables] creates both tables
    empty. *)
Definition create_tables : DatabaseManager :=
  {| persons := []; face_encodings := [];
     seq_persons := 0; seq_face_encodings := 0 |}.

Definition has_name (name : string) (p : person_row) : bool :=
  bool_decide (p_name p = name).

(** [add_person]: the INSERT fails with [IntegrityError] exactly when a
    row with that name exists (UNIQUE; the name is a [str], so NOT NULL
    cannot fail); the handler then SELECTs the id, [fetchone] yielding
    the first such row or nothing ([None]). [now] is
    [datetime.now().isoformat()]. *)
Definition add_person (db : DatabaseManager) (name now : string)
  : DatabaseManager * option Z :=
  if existsb (has_name name) (persons db) then
    (db, p_id <$> find (has_name name) (persons db))
  else
    let lastrowid := (seq_persons db + 1)%Z in
    ({| persons := persons db ++ [PersonRow lastrowid name now];
        face_encodings := face_encodings db;
        seq_persons := lastrowid;
        seq_face_encodings := seq_face_encodings db |},
     Some lastrowid).

(** [add_face_encoding]: one INSERT. The connection never issues
    [PRAGMA foreign_keys = ON], so SQLite does not check [person_id]. *)
Definition add_face_encoding (db : DatabaseManager) (person_id : Z)
    (encoding : Blob) (now : string) : DatabaseManager :=
  let rowid := (seq_face_encodings db + 1)%Z in
  {| persons := persons db;
     face_encodings :=
       face_encodings db ++ [EncodingRow rowid person_id encoding now];
     seq_persons := seq_persons db;
     seq_face_encodings := rowid |}.

(** The rows of [face_encodings fe JOIN persons p ON fe.person_id = p.id]. *)
Definition join_rows (db : DatabaseManager)
  : list (encoding_row * person_row) :=
  fe ← face_encodings db;
  p ← filter (λ p, p_id p = e_person_id fe) (persons db);
  [(fe, p)].

(** [get_all_encodings]: [(name, encoding)] for every joined row. *)
Definition get_all_encodings (db : DatabaseManager) : list (string * Blob) :=
  (λ r, (p_name r.2, e_encoding r.1)) <$> join_rows db.

(** [get_person_encodings]: the join restricted by [WHERE p.name = ?]. *)
Definition get_person_encodings (db : DatabaseManager) (name : string)
  : list Blob :=
  (λ r, e_encoding r.1)
    <$> filter (λ r, p_name r.2 = name) (join_rows db).

(** [delete_person]: [DELETE FROM persons WHERE name = ?] and
    [rowcount > 0]. The schema declares [ON DELETE CASCADE], but SQLite
    runs foreign-key actions only on a connection that has executed
    [PRAGMA foreign_keys = ON]; [sqlite3.connect] leaves it off and the
    program never turns it on, so [face_encodings] is not touched. *)
Definition delete_person (db : DatabaseManager) (name : string)
  : DatabaseManager * bool :=
  let kept := filter (λ p, p_name p ≠ name) (persons db) in
  let rowcount := (length (persons db) - length kept)%nat in
  ({| persons := kept;
      face_encodings := face_encodings db;
      seq_persons := seq_persons db;
      seq_face_encodings := seq_face_encodings db |},
   bool_decide (0 < rowcount)%nat).

(** [COUNT(fe.id)] of the LEFT JOIN group of one person. *)
Definition encoding_count (db : DatabaseManager) (p : person_row) : nat :=
  length (filter (λ fe, e_person_id fe = p_id p) (face_encodings db)).

(** [ORDER BY registered_date DESC] on the TEXT column: insertion of a
    row before the first row that is not later than it. *)
Fixpoint insert_desc (r : string * nat * string)
    (l : list (string * nat * string)) : list (string * nat * string) :=
  match l with
  | [] => [r]
  | r' :: l' =>
      if String.ltb r.2 r'.2 then r' :: insert_desc r l' else r :: l
  end.

Definition order_by_date_desc (l : list (string * nat * string))
  : list (string * nat * string) :=
  foldr insert_desc [] l.

(** [get_all_persons]: [(name, encoding_count, registered_date)],
    latest registration first. *)
Definition get_all_persons (db : DatabaseManager)
  : list (string * nat * string) :=
  order_by_date_desc
    ((λ p, (p_name p, encoding_count db p, p_registered_date p))
       <$> persons db).

(** [clear_all_data]: both tables are emptied explicitly. *)
Definition clear_all_data (db : DatabaseManager) : DatabaseManager :=
  {| persons := []; face_encodings := [];
     seq_persons := seq_persons db;
     seq_face_encodings := seq_face_encodings db |}.

Definition get_person_count (db : DatabaseManager) : nat :=
  length (persons db).

Definition person_exists (db : DatabaseManager) (name : string) : bool :=
  bool_decide (0 < length (filter (λ p, p_name p = name) (persons db)))%nat.

(** What the schema and the way the engines use the store guarantee:
    names and ids are unique, and no row mentions a person id that was
    never handed out. *)
Record db_wf (db : DatabaseManager) : Prop := DbWf {
  wf_names : NoDup (p_name <$> persons db);
  wf_ids : NoDup (p_id <$> persons db);
  wf_seq : Forall (λ p, (p_id p ≤ seq_persons db)%Z) (persons db);
  wf_refs : Forall (λ fe, (e_person_id fe ≤ seq_persons db)%Z)
              (face_encodings db)
}.

End Store.

Arguments person_row : clear implicits.
Arguments encoding_row : clear implicits.
Arguments DatabaseManager : clear implicits.

End Database.

(** ** face_recognition_engine.py (strategy A: embedding distance) *)

Module Embedding.

Section Engine.
(** Frames, face locations [(top, right, bottom, left)] and 128-d
    encodings are opaque; the [face_recognition] library supplies the
    detector, the encoder and the Euclidean norm of a difference. *)
Context {Frame Loc Enc : Type}.
Variable face_locations : Frame → string → list Loc.
Variable face_encodings : Frame → list Loc → list Enc.
Variable dist : Enc → Enc → Q.

Record FaceRecognitionEngine := Engine {
  db_manager : Database.DatabaseManager Enc;
  tolerance : Q;
  known_encodings : list Enc;
  known_names : list string
}.

Record statistics := Stats {
  total_persons : nat;
  total_encodings : nat;
  stat_tolerance : Q
}.

(** [load_known_faces]: both lists are rebuilt from the joined rows. *)
Definition load_known_faces (eng : FaceRecognitionEngine)
  : FaceRecognitionEngine * nat :=
  let encodings_data := Database.get_all_encodings (db_manager eng) in
  let eng' := {| db_manager := db_manager eng;
                 tolerance := tolerance eng;
                 known_encodings := snd <$> encodings_data;
                 known_names := fst <$> encodings_data |} in
  (eng', length (known_encodings eng')).

(** [__init__] with the default tolerance [0.6] when none is given. *)
Definition default_tolerance : Q := 6 # 10.

Definition init (db : Database.DatabaseManager Enc) (tol : Q)
  : FaceRecognitionEngine :=
  fst (load_known_faces {| db_manager := db; tolerance := tol;
                           known_encodings := []; known_names := [] |}).

Definition detect_faces (frame : Frame) (model : string) : list Loc :=
  face_locations frame model.

Definition encode_faces (frame : Frame) (locs : list Loc) : list Enc :=
  face_encodings frame locs.

(** [face_recognition.face_distance]: the norm of the difference to
    every known encoding (the empty array for an empty gallery). *)
Definition face_distance (known : list Enc) (probe : Enc) : list Q :=
  dist probe <$> known.

(** [face_recognition.compare_faces]:
    [list(face_distance(known, probe) <= tolerance)]. *)
Definition compare_faces (known : list Enc) (probe : Enc) (tol : Q)
  : list bool :=
  (λ d, Qle_bool d tol) <$> face_distance known probe.

(** [np.argmin]: the first index holding the minimum. *)
Fixpoint argmin_from (best : nat) (dbest : Q) (i : nat) (l : list Q) : nat :=
  match l with
  | [] => best
  | d :: l' =>
      if Qlt_le_dec d dbest then argmin_from i d (S i) l'
      else argmin_from best dbest (S i) l'
  end.

Definition argmin (l : list Q) : nat :=
  match l with
  | [] => 0%nat
  | d :: l' => argmin_from 0 d 1 l'
  end.

(** The confidence formula of the accepted branch. *)
Definition confidence_of_distance (d : Q) : Q := pymax0 ((1 - d) * 100).

(** The body of the loop of [recognize_faces] for one face. A list
    index out of range raises [IndexError] in Python: [None] here. *)
Definition recognize_one (eng : FaceRecognitionEngine) (face : Loc * Enc)
  : option (Loc * string * Q) :=
  let '(face_location, face_encoding) := face in
  let matches :=
    compare_faces (known_encodings eng) face_encoding (tolerance eng) in
  let face_distances := face_distance (known_encodings eng) face_encoding in
  if bool_decide (0 < length face_distances)%nat then
    let best_match_index := argmin face_distances in
    m ← matches !! best_match_index;
    if (m : bool) then
      name ← known_names eng !! best_match_index;
      d ← face_distances !! best_match_index;
      Some (face_location, name, confidence_of_distance d)
    else Some (face_location, Unknown, 0)
  else Some (face_location, Unknown, 0).

(** [recognize_faces]: the two early returns, then the loop over
    [zip(face_locations, face_encodings)]. *)
Definition recognize_faces (eng : FaceRecognitionEngine) (frame : Frame)
    (model : string) : option (list (Loc * string * Q)) :=
  match known_encodings eng with
  | [] => Some []
  | _ :: _ =>
      let locs := detect_faces frame model in
      match locs with
      | [] => Some []
      | _ :: _ =>
          let encs := encode_faces frame locs in
          mapM (recognize_one eng) (zip locs encs)
      end
  end.

(** [register_face]; [now] stands for the [datetime.now()] of the two
    INSERTs. *)
Definition register_face (eng : FaceRecognitionEngine) (frame : Frame)
    (name now : string) : FaceRecognitionEngine * (bool * string) :=
  let locs := detect_faces frame "hog" in
  if bool_decide (length locs = 0%nat) then
    (eng, (false, "No face detected"))
  else if bool_decide (1 < length locs)%nat then
    (eng, (false,
           "Multiple faces detected - only one person should be visible"))
  else
    match encode_faces frame locs with
    | [] => (eng, (false, "Failed to encode face"))
    | encoding :: _ =>
        let '(db1, person_id) :=
          Database.add_person (db_manager eng) name now in
        let eng1 := {| db_manager := db1; tolerance := tolerance eng;
                       known_encodings := known_encodings eng;
                       known_names := known_names eng |} in
        match person_id with
        | None => (eng1, (false, "Failed to add person to database"))
        | Some pid =>
            let db2 := Database.add_face_encoding db1 pid encoding now in
            let eng2 := {| db_manager := db2; tolerance := tolerance eng;
                           known_encodings := known_encodings eng;
                           known_names := known_names eng |} in
            (fst (load_known_faces eng2),
             (true, "Face registered successfully"))
        end
    end.

(** [delete_person]: reload only when a row was deleted. *)
Definition delete_person (eng : FaceRecognitionEngine) (name : string)
  : FaceRecognitionEngine * bool :=
  let '(db1, success) := Database.delete_person (db_manager eng) name in
  let eng1 := {| db_manager := db1; tolerance := tolerance eng;
                 known_encodings := known_encodings eng;
                 known_names := known_names eng |} in
  if success then (fst (load_known_faces eng1), success)
  else (eng1, success).

Definition clear_all_faces (eng : FaceRecognitionEngine)
  : FaceRecognitionEngine :=
  fst (load_known_faces
         {| db_manager := Database.clear_all_data (db_manager eng);
            tolerance := tolerance eng;
            known_encodings := known_encodings eng;
            known_names := known_names eng |}).

Definition get_statistics (eng : FaceRecognitionEngine) : statistics :=
  {| total_persons := Database.get_person_count (db_manager eng);
     total_encodings := length (known_encodings eng);
     stat_tolerance := tolerance eng |}.

(** The cache mirrors the store, as after every [load_known_faces]. *)
Definition in_sync (eng : FaceRecognitionEngine) : Prop :=
  known_encodings eng = snd <$> Database.get_all_encodings (db_manager eng)
  ∧ known_names eng = fst <$> Database.get_all_encodings (db_manager eng).

End Engine.

Arguments FaceRecognitionEngine : clear implicits.

End Embedding.

(** ** face_recognition_engine_opencv.py (strategy B: LBPH classifier) *)

Module LBPH.

Section Engine.
(** OpenCV supplies the grayscale conversion, the Haar cascade (boxes
    [(x, y, w, h)]), cropping a region and resizing it to 200x200, and
    the LBPH recognizer. The recognizer object is represented by the
    data of its last [train] call; [predict] answers from it with a
    label and a distance-like score. *)
Context {Frame GrayImg Patch : Type}.
Variable cvtColor : Frame → GrayImg.
Variable detectMultiScale : GrayImg → list (Z * Z * Z * Z).
Variable crop_resize : GrayImg → Z * Z * Z * Z → Patch.
Variable predict : list Patch → list Z → Patch → Z * Q.

Record FaceRecognitionEngine := Engine {
  db_manager : Database.DatabaseManager Patch;
  tolerance : Q;
  recognizer : list Patch * list Z;
  label_to_name : gmap Z string;
  name_to_label : gmap string Z;
  trained : bool
}.

Record statistics := Stats {
  total_persons : nat;
  total_encodings : nat;
  stat_tolerance : Q
}.

Definition with_db (eng : FaceRecognitionEngine)
    (db : Database.DatabaseManager Patch) : FaceRecognitionEngine :=
  {| db_manager := db; tolerance := tolerance eng;
     recognizer := recognizer eng;
     label_to_name := label_to_name eng;
     name_to_label := name_to_label eng;
     trained := trained eng |}.

(** The accumulator of the [for name, count, _ in persons] loop. *)
Record training := Training {
  t_label_to_name : gmap Z string;
  t_name_to_label : gmap string Z;
  t_faces : list Patch;
  t_labels : list Z;
  t_label_id : Z
}.

Definition collect (db : Database.DatabaseManager Patch) (acc : training)
    (person : string * nat * string) : training :=
  let name := person.1.1 in
  let person_encodings := Database.get_person_encodings db name in
  {| t_label_to_name := <[t_label_id acc := name]> (t_label_to_name acc);
     t_name_to_label := <[name := t_label_id acc]> (t_name_to_label acc);
     t_faces := t_faces acc ++ person_encodings;
     t_labels :=
       t_labels acc ++ replicate (length person_encodings) (t_label_id acc);
     t_label_id := (t_label_id acc + 1)%Z |}.

(** [load_known_faces]. With no person in the store the function
    returns before the two dictionaries are cleared. *)
Definition load_known_faces (eng : FaceRecognitionEngine)
  : FaceRecognitionEngine * nat :=
  let persons := Database.get_all_persons (db_manager eng) in
  match persons with
  | [] =>
      ({| db_manager := db_manager eng; tolerance := tolerance eng;
          recognizer := recognizer eng;
          label_to_name := label_to_name eng;
          name_to_label := name_to_label eng;
          trained := false |}, 0%nat)
  | _ :: _ =>
      let acc :=
        foldl (collect (db_manager eng))
          {| t_label_to_name := ∅; t_name_to_label := ∅;
             t_faces := []; t_labels := []; t_label_id := 0 |} persons in
      if bool_decide (0 < length (t_faces acc))%nat then
        ({| db_manager := db_manager eng; tolerance := tolerance eng;
            recognizer := (t_faces acc, t_labels acc);
            label_to_name := t_label_to_name acc;
            name_to_label := t_name_to_label acc;
            trained := true |}, length (t_faces acc))
      else
        ({| db_manager := db_manager eng; tolerance := tolerance eng;
            recognizer := recognizer eng;
            label_to_name := t_label_to_name acc;
            name_to_label := t_name_to_label acc;
            trained := false |}, 0%nat)
  end.

(** [__init__] with the default tolerance [100.0] when none is given. *)
Definition default_tolerance : Q := 100.

Definition init (db : Database.DatabaseManager Patch) (tol : Q)
  : FaceRecognitionEngine :=
  fst (load_known_faces {| db_manager := db; tolerance := tol;
                           recognizer := ([], []);
                           label_to_name := ∅; name_to_label := ∅;
                           trained := false |}).

(** [detect_faces]: cascade boxes [(x, y, w, h)] become
    [(top, right, bottom, left)]. The [model] argument is ignored. *)
Definition detect_faces (frame : Frame) (model : string)
  : list (Z * Z * Z * Z) :=
  (λ '(x, y, w, h), (y, x + w, y + h, x)%Z)
    <$> detectMultiScale (cvtColor frame).

(** The confidence formula of the accepted branch. *)
Definition confidence_of_score (score : Q) : Q := pymax0 (100 - score).

(** [label, confidence = self.recognizer.predict(face_resized)] for the
    region [face_location] of the grayscale frame. *)
Definition prediction (eng : FaceRecognitionEngine) (gray : GrayImg)
    (face_location : Z * Z * Z * Z) : Z * Q :=
  let face_resized := crop_resize gray face_location in
  predict (recognizer eng).1 (recognizer eng).2 face_resized.

(** The body of the loop of [recognize_faces] for one region. *)
Definition recognize_one (eng : FaceRecognitionEngine) (gray : GrayImg)
    (face_location : Z * Z * Z * Z) : (Z * Z * Z * Z) * string * Q :=
  let '(label, confidence) := prediction eng gray face_location in
  match Qlt_le_dec confidence (tolerance eng), label_to_name eng !! label with
  | left _, Some name => (face_location, name, confidence_of_score confidence)
  | _, _ => (face_location, Unknown, 0)
  end.

Definition recognize_faces (eng : FaceRecognitionEngine) (frame : Frame)
    (model : string) : list ((Z * Z * Z * Z) * string * Q) :=
  if trained eng then
    let gray := cvtColor frame in
    recognize_one eng gray <$> detect_faces frame "hog"
  else [].

(** [register_face]; the stored record is the resized grayscale patch. *)
Definition register_face (eng : FaceRecognitionEngine) (frame : Frame)
    (name now : string) : FaceRecognitionEngine * (bool * string) :=
  let locs := detect_faces frame "hog" in
  match locs with
  | [] => (eng, (false, "No face detected"))
  | _ :: _ :: _ =>
      (eng, (false,
             "Multiple faces detected - only one person should be visible"))
  | [face_location] =>
      let gray := cvtColor frame in
      let face_resized := crop_resize gray face_location in
      let '(db1, person_id) :=
        Database.add_person (db_manager eng) name now in
      match person_id with
      | None =>
          (with_db eng db1, (false, "Failed to add person to database"))
      | Some pid =>
          let db2 := Database.add_face_encoding db1 pid face_resized now in
          (fst (load_known_faces (with_db eng db2)),
           (true, "Face registered successfully"))
      end
  end.

Definition delete_person (eng : FaceRecognitionEngine) (name : string)
  : FaceRecognitionEngine * bool :=
  let '(db1, success) := Database.delete_person (db_manager eng) name in
  if success then (fst (load_known_faces (with_db eng db1)), success)
  else (with_db eng db1, success).

Definition clear_all_faces (eng : FaceRecognitionEngine)
  : FaceRecognitionEngine :=
  fst (load_known_faces
         (with_db eng (Database.clear_all_data (db_manager eng)))).

(** [get_statistics]: [total_encodings] is [len(self.label_to_name)]. *)
Definition get_statistics (eng : FaceRecognitionEngine) : statistics :=
  {| total_persons := Database.get_person_count (db_manager eng);
     total_encodings := size (label_to_name eng);
     stat_tolerance := tolerance eng |}.

End Engine.

Arguments FaceRecognitionEngine : clear implicits.

End LBPH.

(** ** main.py (enrollment) *)

Module App.

Section App.
Context {Frame GrayImg Patch : Type}.
Variable cvtColor : Frame → GrayImg.
Variable detectMultiScale : GrayImg → list (Z * Z * Z * Z).
Variable crop_resize : GrayImg → Z * Z * Z * Z → Patch.
Variable predict : list Patch → list Z → Patch → Z * Q.

(** The state variables of [FacialRecognitionApp] that the camera loop
    reads and writes; widgets and the log are left out. The engine is
    the one [main.py] imports, the OpenCV one. *)
Record FacialRecognitionApp := AppState {
  face_engine : LBPH.FaceRecognitionEngine Patch;
  registration_mode : bool;
  registration_name : string;
  registration_count : Z;
  target_samples : Z;
  last_capture_time : Q;
  capture_delay : Q
}.

(** What one pass of the camera loop did with its frame: in
    registration mode, the result of [register_face] when it was
    called; otherwise the recognition results handed to the display. *)
Inductive frame_outcome :=
| Registration (call : option (bool * string))
| Recognition (results : list ((Z * Z * Z * Z) * string * Q)).

(** [__init__]: tolerance 80.0, ten samples, half a second between
    captures. *)
Definition init (db : Database.DatabaseManager Patch) : FacialRecognitionApp :=
  {| face_engine := LBPH.init db 80;
     registration_mode := false;
     registration_name := "";
     registration_count := 0;
     target_samples := 10;
     last_capture_time := 0;
     capture_delay := 5 # 10 |}.

(** The assignments of [start_registration] once the dialogs have let
    the name through. *)
Definition start_registration (app : FacialRecognitionApp) (name : string)
  : FacialRecognitionApp :=
  {| face_engine := face_engine app;
     registration_mode := true;
     registration_name := name;
     registration_count := 0;
     target_samples := target_samples app;
     last_capture_time := 0;
     capture_delay := capture_delay app |}.

Definition complete_registration (app : FacialRecognitionApp)
  : FacialRecognitionApp :=
  {| face_engine := face_engine app;
     registration_mode := false;
     registration_name := registration_name app;
     registration_count := registration_count app;
     target_samples := target_samples app;
     last_capture_time := last_capture_time app;
     capture_delay := capture_delay app |}.

(** [process_registration_frame]; [current_time] is [time.time()] and
    [now] the timestamp of the INSERTs. *)
Definition process_registration_frame (app : FacialRecognitionApp)
    (frame : Frame) (current_time : Q) (now : string)
  : FacialRecognitionApp * option (bool * string) :=
  let face_locations :=
    LBPH.detect_faces cvtColor detectMultiScale frame "hog" in
  if bool_decide (length face_locations ≠ 1%nat) then (app, None)
  else if Qle_bool (capture_delay app)
                   (current_time - last_capture_time app) then
    if (registration_count app <? target_samples app)%Z then
      let '(eng, (success, msg)) :=
        LBPH.register_face cvtColor detectMultiScale crop_resize
          (face_engine app) frame (registration_name app) now in
      if success then
        let app1 :=
          {| face_engine := eng;
             registration_mode := registration_mode app;
             registration_name := registration_name app;
             registration_count := (registration_count app + 1)%Z;
             target_samples := target_samples app;
             last_capture_time := current_time;
             capture_delay := capture_delay app |} in
        if (target_samples app1 <=? registration_count app1)%Z then
          (complete_registration app1, Some (success, msg))
        else (app1, Some (success, msg))
      else
        ({| face_engine := eng;
            registration_mode := registration_mode app;
            registration_name := registration_name app;
            registration_count := registration_count app;
            target_samples := target_samples app;
            last_capture_time := last_capture_time app;
            capture_delay := capture_delay app |},
         Some (success, msg))
    else (app, None)
  else (app, None).

Definition process_recognition_frame (app : FacialRecognitionApp)
    (frame : Frame) : list ((Z * Z * Z * Z) * string * Q) :=
  LBPH.recognize_faces cvtColor detectMultiScale crop_resize predict
    (face_engine app) frame "hog".

(** The body of [camera_loop] for a frame that was read successfully. *)
Definition camera_loop_body (app : FacialRecognitionApp) (frame : Frame)
    (current_time : Q) (now : string)
  : FacialRecognitionApp * frame_outcome :=
  if registration_mode app then
    let '(app', call) :=
      process_registration_frame app frame current_time now in
    (app', Registration call)
  else (app, Recognition (process_recognition_frame app frame)).

End App.

Arguments FacialRecognitionApp : clear implicits.

End App.

(** ** Test doubles

    Small concrete stand-ins for the third-party libraries, used to run
    the engines on explicit inputs. *)

Module Sample.

(** Strategy A: a frame lists its faces, each with a location and, when
    the encoder can produce one, a one-dimensional encoding; in one
    dimension the Euclidean norm of a difference is its absolute value. *)
Definition Frame : Type := list (nat * option Q).

Definition face_locations (frame : Frame) (model : string) : list nat :=
  fst <$> frame.

Definition face_encodings (frame : Frame) (locs : list nat) : list Q :=
  omap snd frame.

Definition dist (a b : Q) : Q := Qabs (a - b).

(** Strategy B: a scene is the list of boxes [(x, y, w, h)] the cascade
    finds; a patch is the region it was cut from; the stub classifier
    answers with the region's [top] as label and the magnitude of its
    [left] as score. *)
Definition Scene : Type := list (Z * Z * Z * Z).

Definition cvtColor (frame : Scene) : Scene := frame.

Definition detectMultiScale (gray : Scene) : list (Z * Z * Z * Z) := gray.

Definition crop_resize (gray : Scene) (loc : Z * Z * Z * Z)
  : Z * Z * Z * Z := loc.

Definition predict (faces : list (Z * Z * Z * Z)) (labels : list Z)
    (patch : Z * Z * Z * Z) : Z * Q :=
  let '(t, _, _, l) := patch in (t, inject_Z (Z.abs l)).

(** An embedding engine whose gallery holds one record, enrolled under
    the name [Unknown], with encoding [0]. *)
Definition gallery_with_unknown : Embedding.FaceRecognitionEngine Q :=
  fst (Embedding.register_face face_locations face_encodings
         (Embedding.init Database.create_tables Embedding.default_tolerance)
         [(0%nat, Some 0)] Unknown "2024-01-01T10:00:00").

(** An embedding engine whose gallery holds one record of alice, with
    encoding [0]. *)
Definition gallery_alice : Embedding.FaceRecognitionEngine Q :=
  fst (Embedding.register_face face_locations face_encodings
         (Embedding.init Database.create_tables Embedding.default_tolerance)
         [(0%nat, Some 0)] "alice" "2024-01-01T10:00:00").

(** A classifier engine after one sample of alice. *)
Definition alice_once : LBPH.FaceRecognitionEngine (Z * Z * Z * Z) :=
  fst (LBPH.register_face cvtColor detectMultiScale crop_resize
         (LBPH.init Database.create_tables LBPH.default_tolerance)
         [(30, 0, 100, 100)%Z] "alice" "2024-01-01T10:00:00").

(** The application in the middle of an enrollment of bob. *)
Definition capturing (count : Z) (last : Q)
  : App.FacialRecognitionApp (Z * Z * Z * Z) :=
  {| App.face_engine := alice_once;
     App.registration_mode := true;
     App.registration_name := "bob";
     App.registration_count := count;
     App.target_samples := 10;
     App.last_capture_time := last;
     App.capture_delay := 5 # 10 |}.

End Sample.

(** ** Two sentences of the specification, read literally *)

Section Literal.
Context {Frame Loc Enc : Type}.
Variable face_locations : Frame → string → list Loc.
Variable face_encodings : Frame → list Loc → list Enc.
Variable dist : Enc → Enc → Q.

(** "The returned identity is the arg-min-distance identity if and only
    if that minimal distance is at most the tolerance." *)
Definition identity_iff_within_tolerance
    (eng : Embedding.FaceRecognitionEngine Enc) (frame : Frame)
    (model : string) : Prop :=
  ∀ results i loc enc name conf dmin best_name,
    Embedding.recognize_faces face_locations face_encodings dist
      eng frame model = Some results →
    zip (Embedding.detect_faces face_locations frame model)
        (Embedding.encode_faces face_encodings frame
           (Embedding.detect_faces face_locations frame model)) !! i
      = Some (loc, enc) →
    results !! i = Some (loc, name, conf) →
    let dists :=
      Embedding.face_distance dist (Embedding.known_encodings eng) enc in
    dists !! Embedding.argmin dists = Some dmin →
    Embedding.known_names eng !! Embedding.argmin dists = Some best_name →
    (name = best_name ↔ dmin <= Embedding.tolerance eng).

(** "If the identity is the sentinel then the confidence is 0.0." *)
Definition unknown_has_zero_confidence
    (eng : Embedding.FaceRecognitionEngine Enc) (frame : Frame)
    (model : string) : Prop :=
  ∀ results loc name conf,
    Embedding.recognize_faces face_locations face_encodings dist
      eng frame model = Some results →
    (loc, name, conf) ∈ results →
    name = Unknown → conf == 0.

End Literal.

(** ** camera_handler.py *)

Module Camera.

Section Handler.
(** OpenCV supplies the device: opening it by index, whether it opened,
    setting a property, reading the next frame ([None] when [ret] is
    false), mirroring a frame and converting BGR to RGB. Releasing a
    device has no effect the handler can observe. *)
Context {Device RawFrame Frame : Type}.
Variable VideoCapture : Z → Device.
Variable isOpened : Device → bool.
Variable set_property : Device → string → Z → Device.
Variable read : Device → Device * option RawFrame.
Variable flip_horizontal : RawFrame → RawFrame.
Variable cvtColor_BGR2RGB : RawFrame → Frame.

Record CameraHandler := Handler {
  camera_index : Z;
  width : Z;
  height : Z;
  capture : option Device;
  is_active : bool
}.

(** [__init__]: no device yet. *)
Definition init (index w h : Z) : CameraHandler :=
  {| camera_index := index; width := w; height := h;
     capture := None; is_active := false |}.

(** [start]: nothing to do when active; otherwise the device is opened
    and kept in [capture] whether or not it opened. *)
Definition start (cam : CameraHandler) : CameraHandler * bool :=
  if is_active cam then (cam, true)
  else
    let device := VideoCapture (camera_index cam) in
    if negb (isOpened device) then
      ({| camera_index := camera_index cam; width := width cam;
          height := height cam; capture := Some device;
          is_active := false |}, false)
    else
      let device := set_property device "CAP_PROP_FRAME_WIDTH" (width cam) in
      let device :=
        set_property device "CAP_PROP_FRAME_HEIGHT" (height cam) in
      ({| camera_index := camera_index cam; width := width cam;
          height := height cam; capture := Some device;
          is_active := true |}, true).

(** [stop]: the device, if any, is released and forgotten. *)
Definition stop (cam : CameraHandler) : CameraHandler :=
  {| camera_index := camera_index cam; width := width cam;
     height := height cam; capture := None; is_active := false |}.

(** [get_bgr_frame]: the mirrored frame as the device delivers it. *)
Definition get_bgr_frame (cam : CameraHandler)
  : CameraHandler * (bool * option RawFrame) :=
  match is_active cam, capture cam with
  | true, Some device =>
      let '(device', ret) := read device in
      let cam' := {| camera_index := camera_index cam; width := width cam;
                     height := height cam; capture := Some device';
                     is_active := is_active cam |} in
      match ret with
      | None => (cam', (false, None))
      | Some frame => (cam', (true, Some (flip_horizontal frame)))
      end
  | _, _ => (cam, (false, None))
  end.

(** [read_frame]: the mirrored frame converted to RGB. *)
Definition read_frame (cam : CameraHandler)
  : CameraHandler * (bool * option Frame) :=
  match is_active cam, capture cam with
  | true, Some device =>
      let '(device', ret) := read device in
      let cam' := {| camera_index := camera_index cam; width := width cam;
                     height := height cam; capture := Some device';
                     is_active := is_active cam |} in
      match ret with
      | None => (cam', (false, None))
      | Some frame =>
          (cam', (true, Some (cvtColor_BGR2RGB (flip_horizontal frame))))
      end
  | _, _ => (cam, (false, None))
  end.

Definition is_running (cam : CameraHandler) : bool := is_active cam.

(** An active handler holds a device. *)
Definition has_device (cam : CameraHandler) : Prop :=
  is_active cam = true → is_Some (capture cam).

End Handler.

Arguments CameraHandler : clear implicits.

End Camera.

(** ** main.py (camera loop, registration dialog) *)

Module Main.

Section Main.
Context {Device RawFrame Frame GrayImg Patch : Type}.
Variable VideoCapture : Z → Device.
Variable isOpened : Device → bool.
Variable set_property : Device → string → Z → Device.
Variable read : Device → Device * option RawFrame.
Variable flip_horizontal : RawFrame → RawFrame.
Variable cvtColor_BGR2RGB : RawFrame → Frame.
Variable cvtColor : Frame → GrayImg.
Variable detectMultiScale : GrayImg → list (Z * Z * Z * Z).
Variable crop_resize : GrayImg → Z * Z * Z * Z → Patch.
Variable predict : list Patch → list Z → Patch → Z * Q.

(** Python's classification of one character ([str.isspace],
    [str.isalnum]); the characters are those of a Rocq string. *)
Variable isspace_char : ascii → bool.
Variable isalnum_char : ascii → bool.

Fixpoint lstrip (l : list ascii) : list ascii :=
  match l with
  | [] => []
  | c :: l' => if isspace_char c then lstrip l' else l
  end.

(** [s.strip()] *)
Definition strip (s : string) : string :=
  String.string_of_list_ascii
    (rev (lstrip (rev (lstrip (String.list_ascii_of_string s))))).

(** [s.replace(c, "")] for a one-character [c] *)
Definition remove_char (c : ascii) (s : string) : string :=
  String.string_of_list_ascii (filter (λ x, x ≠ c) (String.list_ascii_of_string s)).

(** [s.isalnum()]: at least one character, and all alphanumeric. *)
Definition isalnum (s : string) : bool :=
  match String.list_ascii_of_string s with
  | [] => false
  | l => forallb isalnum_char l
  end.

(** How [start_registration] ended. *)
Inductive dialog :=
| InvalidName (message : string)
| Declined
| Started.

(** [start_registration]; [entry] is the text of the name field and
    [add_more] the answer to "Add more samples?", asked only when the
    person exists. *)
Definition start_registration (app : App.FacialRecognitionApp Patch)
    (entry : string) (add_more : bool)
  : App.FacialRecognitionApp Patch * dialog :=
  let name := strip entry in
  if bool_decide (name = "") then
    (app, InvalidName "Please enter a name")
  else if negb (isalnum (remove_char "-"%char (remove_char "_"%char name))) then
    (app, InvalidName
            "Name can only contain letters, numbers, hyphens, and underscores")
  else if Database.person_exists
            (LBPH.db_manager (App.face_engine app)) name
          && negb add_more then
    (app, Declined)
  else (App.start_registration app name, Started).

(** The application state together with its camera. *)
Record Session := MkSession {
  app : App.FacialRecognitionApp Patch;
  camera : Camera.CameraHandler Device;
  camera_active : bool;
  running : bool
}.

(** [toggle_camera] *)
Definition toggle_camera (s : Session) : Session :=
  if negb (camera_active s) then
    let '(cam, started) :=
      Camera.start VideoCapture isOpened set_property (camera s) in
    {| app := app s; camera := cam;
       camera_active := if started then true else camera_active s;
       running := running s |}
  else
    {| app := app s; camera := Camera.stop (camera s);
       camera_active := false; running := running s |}.

(** One pass of the [while] loop of [camera_loop]: nothing when the loop
    condition is false, a retry when no frame could be read, otherwise
    the frame is processed in the current mode. *)
Definition camera_loop_pass (s : Session) (current_time : Q) (now : string)
  : Session * option App.frame_outcome :=
  if camera_active s && running s then
    let '(cam, (success, frame)) :=
      Camera.read_frame read flip_horizontal cvtColor_BGR2RGB (camera s) in
    match success, frame with
    | true, Some frame =>
        let '(app', outcome) :=
          App.camera_loop_body cvtColor detectMultiScale crop_resize predict
            (app s) frame current_time now in
        ({| app := app'; camera := cam;
            camera_active := camera_active s; running := running s |},
         Some outcome)
    | _, _ =>
        ({| app := app s; camera := cam;
            camera_active := camera_active s; running := running s |}, None)
    end
  else (s, None).

(** The loop body over the frames that were read, each with the clock
    readings of its pass. *)
Definition process_frames (a : App.FacialRecognitionApp Patch)
    (events : list (Frame * Q * string)) : App.FacialRecognitionApp Patch :=
  foldl (λ a event,
           (App.camera_loop_body cvtColor detectMultiScale crop_resize predict
              a event.1.1 event.1.2 event.2).1)
    a events.

(** Every frame shows one face and arrives at least [delay] after the
    previous one ([last] for the first). *)
Fixpoint spaced (delay last : Q) (events : list (Frame * Q * string))
  : Prop :=
  match events with
  | [] => True
  | event :: events' =>
      length (LBPH.detect_faces cvtColor detectMultiScale event.1.1 "hog")
      = 1%nat
      ∧ delay <= event.1.2 - last
      ∧ spaced delay event.1.2 events'
  end.

End Main.

Arguments Session : clear implicits.

End Main.

(** ** More test doubles *)

Module Bench.

(** A device is the list of frames it will still deliver, or nothing
    when it could not be opened; only index 0 opens. *)
Definition Device : Type := option (list Sample.Scene).

Definition VideoCapture (index : Z) : Device :=
  if (index =? 0)%Z then Some [[(30, 0, 100, 100)%Z]; []] else None.

Definition isOpened (device : Device) : bool :=
  match device with Some _ => true | None => false end.

Definition set_property (device : Device) (prop : string) (value : Z)
  : Device := device.

Definition read (device : Device) : Device * option Sample.Scene :=
  match device with
  | Some (frame :: frames) => (Some frames, Some frame)
  | _ => (device, None)
  end.

Definition flip_horizontal (frame : Sample.Scene) : Sample.Scene := frame.

Definition cvtColor_BGR2RGB (frame : Sample.Scene) : Sample.Scene := frame.

Definition isspace_char (c : ascii) : bool := bool_decide (c = " "%char).

Definition isalnum_char (c : ascii) : bool :=
  let n := nat_of_ascii c in
  ((48 <=? n) && (n <=? 57) || (65 <=? n) && (n <=? 90)
   || (97 <=? n) && (n <=? 122))%nat.

(** A store with alice (two records) and bob (one), bob registered later. *)
Definition two_persons : Database.DatabaseManager Q :=
  {| Database.persons :=
       [Database.PersonRow 1 "alice" "2024-01-01T10:00:00";
        Database.PersonRow 2 "bob" "2024-01-02T10:00:00"];
     Database.face_encodings :=
       [Database.EncodingRow 1 1 0 "2024-01-01T10:00:00";
        Database.EncodingRow 2 1 (1 # 10) "2024-01-01T10:00:01";
        Database.EncodingRow 3 2 5 "2024-01-02T10:00:00"];
     Database.seq_persons := 2;
     Database.seq_face_encodings := 3 |}.

Definition two_persons_engine : Embedding.FaceRecognitionEngine Q :=
  Embedding.init two_persons Embedding.default_tolerance.

(** An enrollment under way while the camera is switched off. *)
Definition paused : Main.Session Device (Z * Z * Z * Z) :=
  {| Main.app := Sample.capturing 3 10;
     Main.camera := Camera.init 0 640 480;
     Main.camera_active := false;
     Main.running := true |}.

End Bench.

(** * Properties *)

(** ** Clamping *)

Lemma pymax0_nonneg (x : Q) : 0 <= pymax0 x.
Proof. unfold pymax0. destruct (Qlt_le_dec 0 x); lra. Qed.

Lemma pymax0_mono (x y : Q) : x <= y → pymax0 x <= pymax0 y.
Proof.
  intros Hxy. unfold pymax0.
  destruct (Qlt_le_dec 0 x), (Qlt_le_dec 0 y); lra.
Qed.

Lemma pymax0_upper (x b : Q) : 0 <= b → x <= b → pymax0 x <= b.
Proof. intros Hb Hx. unfold pymax0. destruct (Qlt_le_dec 0 x); lra. Qed.

Lemma pymax0_pos (x : Q) : 0 < x → pymax0 x = x.
Proof. intros Hx. unfold pymax0. destruct (Qlt_le_dec 0 x); [done | lra]. Qed.

Lemma confidence_of_distance_range (d : Q) :
  0 <= d → 0 <= Embedding.confidence_of_distance d <= 100.
Proof.
  intros Hd. split; [apply pymax0_nonneg |].
  apply pymax0_upper; lra.
Qed.

Lemma confidence_of_score_range (s : Q) :
  0 <= s → 0 <= LBPH.confidence_of_score s <= 100.
Proof.
  intros Hs. split; [apply pymax0_nonneg |].
  apply pymax0_upper; lra.
Qed.

(** ** [np.argmin] *)

Lemma argmin_from_spec (pre l : list Q) (best : nat) (dbest : Q) :
  pre !! best = Some dbest →
  (∀ j d, pre !! j = Some d → dbest <= d) →
  ∃ dr, (pre ++ l) !! Embedding.argmin_from best dbest (length pre) l = Some dr
        ∧ ∀ j d, (pre ++ l) !! j = Some d → dr <= d.
Proof.
  revert pre best dbest.
  induction l as [| x l IH]; intros pre best dbest Hbest Hmin; simpl.
  - exists dbest. rewrite app_nil_r. auto.
  - replace (pre ++ x :: l) with ((pre ++ [x]) ++ l)
      by (rewrite <- app_assoc; reflexivity).
    replace (S (length pre)) with (length (pre ++ [x]))
      by (rewrite length_app; simpl; lia).
    destruct (Qlt_le_dec x dbest) as [Hlt | Hle].
    + apply IH.
      * rewrite lookup_app_r by lia. by rewrite Nat.sub_diag.
      * intros j d Hj. apply lookup_app_Some in Hj as [Hj | [_ Hj]].
        -- specialize (Hmin j d Hj). lra.
        -- destruct (j - length pre)%nat; simpl in Hj; [| done].
           injection Hj as <-. lra.
    + apply IH.
      * apply lookup_app_l_Some. exact Hbest.
      * intros j d Hj. apply lookup_app_Some in Hj as [Hj | [_ Hj]].
        -- by apply (Hmin j).
        -- destruct (j - length pre)%nat; simpl in Hj; [| done].
           injection Hj as <-. exact Hle.
Qed.

Lemma argmin_spec (l : list Q) :
  l ≠ [] →
  ∃ dmin, l !! Embedding.argmin l = Some dmin
          ∧ ∀ j d, l !! j = Some d → dmin <= d.
Proof.
  destruct l as [| x l]; [done | intros _].
  apply (argmin_from_spec [x] l 0 x); [done |].
  intros [| j] d Hj; simpl in Hj; [| done].
  injection Hj as <-. lra.
Qed.

(** ** Strategy A: recognition *)

Section EmbeddingFacts.
Context {Frame Loc Enc : Type}.
Variable face_locations : Frame → string → list Loc.
Variable face_encodings : Frame → list Loc → list Enc.
Variable dist : Enc → Enc → Q.

Import Embedding.

(** The outcome of the loop body in terms of the arg-min pair. *)
Lemma recognize_one_spec (eng : FaceRecognitionEngine Enc) (loc : Loc)
    (enc : Enc) :
  known_encodings eng ≠ [] →
  length (known_names eng) = length (known_encodings eng) →
  let dists := face_distance dist (known_encodings eng) enc in
  ∃ dmin best_name,
    dists !! argmin dists = Some dmin
    ∧ known_names eng !! argmin dists = Some best_name
    ∧ (∀ j d, dists !! j = Some d → dmin <= d)
    ∧ recognize_one dist eng (loc, enc)
      = Some (if Qle_bool dmin (tolerance eng)
              then (loc, best_name, confidence_of_distance dmin)
              else (loc, Unknown, 0)).
Proof.
  intros Hne Hlen dists.
  assert (Hd : dists ≠ []).
  { unfold dists, face_distance. destruct (known_encodings eng); done. }
  destruct (argmin_spec dists Hd) as (dmin & Hbest & Hmin).
  assert (Hlt : (argmin dists < length (known_names eng))%nat).
  { apply lookup_lt_Some in Hbest.
    unfold dists, face_distance in *. rewrite length_fmap in Hbest. lia. }
  destruct (lookup_lt_is_Some_2 _ _ Hlt) as [best_name Hname].
  exists dmin, best_name. repeat split; [done | done | done |].
  assert (Hpos : (0 < length dists)%nat)
    by (destruct dists; [done | simpl; lia]).
  subst dists. unfold recognize_one.
  rewrite bool_decide_eq_true_2 by exact Hpos.
  unfold compare_faces.
  rewrite list_lookup_fmap, Hbest. simpl.
  destruct (Qle_bool dmin (tolerance eng)); simpl; [| done].
  by rewrite Hname.
Qed.

Lemma recognize_faces_loop (eng : FaceRecognitionEngine Enc) (frame : Frame)
    (model : string) :
  known_encodings eng ≠ [] →
  recognize_faces face_locations face_encodings dist eng frame model
  = mapM (recognize_one dist eng)
      (zip (detect_faces face_locations frame model)
           (encode_faces face_encodings frame
              (detect_faces face_locations frame model))).
Proof.
  intros Hne. unfold recognize_faces.
  destruct (known_encodings eng); [done |].
  by destruct (detect_faces face_locations frame model).
Qed.

(** C1, amended. With a non-empty gallery whose two cache lists have
    the same length, [recognize_faces] returns one result per detected
    and encoded face. For each face, let [dmin] be the distance at
    [np.argmin] (no gallery vector is nearer) and [best_name] the
    identity stored at that index. When [dmin <= tolerance] the result
    carries [best_name] and the confidence [max(0, (1 - dmin) * 100)];
    otherwise it carries the sentinel and confidence [0]. The
    equivalence "identity is [best_name] iff [dmin <= tolerance]" holds
    whenever [best_name] is not itself the sentinel string. *)
Theorem recognize_faces_accept_rule (eng : FaceRecognitionEngine Enc)
    (frame : Frame) (model : string) :
  known_encodings eng ≠ [] →
  length (known_names eng) = length (known_encodings eng) →
  let locs := detect_faces face_locations frame model in
  let encs := encode_faces face_encodings frame locs in
  ∃ results,
    recognize_faces face_locations face_encodings dist eng frame model
    = Some results
    ∧ length results = length (zip locs encs)
    ∧ ∀ i loc enc,
        zip locs encs !! i = Some (loc, enc) →
        let dists := face_distance dist (known_encodings eng) enc in
        ∃ dmin best_name name conf,
          dists !! argmin dists = Some dmin
          ∧ (∀ j d, dists !! j = Some d → dmin <= d)
          ∧ known_names eng !! argmin dists = Some best_name
          ∧ results !! i = Some (loc, name, conf)
          ∧ (dmin <= tolerance eng →
             name = best_name ∧ conf = confidence_of_distance dmin)
          ∧ (¬ dmin <= tolerance eng → name = Unknown ∧ conf = 0)
          ∧ (best_name ≠ Unknown →
             (name = best_name ↔ dmin <= tolerance eng)).
Proof.
  intros Hne Hlen locs encs.
  rewrite recognize_faces_loop by done. fold locs. fold encs.
  assert (Hsome : is_Some (mapM (recognize_one dist eng) (zip locs encs))).
  { apply mapM_is_Some, Forall_forall. intros [loc enc] _.
    destruct (recognize_one_spec eng loc enc Hne Hlen)
      as (? & ? & _ & _ & _ & Hone).
    unfold compose. rewrite Hone. done. }
  destruct Hsome as [results Hres]. exists results.
  split; [done |]. apply mapM_Some in Hres.
  split; [symmetry; by eapply Forall2_length |].
  intros i loc enc Hi dists.
  destruct (recognize_one_spec eng loc enc Hne Hlen)
    as (dmin & best_name & Hbest & Hname & Hmin & Hone).
  destruct (Forall2_lookup_l _ _ _ _ _ Hres Hi) as (r & Hr & Hfr).
  rewrite Hone in Hfr. injection Hfr as <-.
  destruct (Qle_bool dmin (tolerance eng)) eqn:Hle.
  - apply Qle_bool_iff in Hle.
    exists dmin, best_name, best_name, (confidence_of_distance dmin).
    repeat split; auto; done.
  - assert (Hnle : ¬ dmin <= tolerance eng).
    { intros H. apply Qle_bool_iff in H. congruence. }
    exists dmin, best_name, Unknown, 0.
    repeat split; auto; done.
Qed.

End EmbeddingFacts.

(** The literal equivalence of C1 fails when a person is enrolled under
    the name of the sentinel: the gallery holds the single record
    ("Unknown", 0), the probe has encoding 1, so the minimal distance 1
    exceeds the tolerance 0.6, yet the returned identity "Unknown" is the
    arg-min identity. *)
Lemma identity_iff_within_tolerance_fails :
  ¬ identity_iff_within_tolerance
      Sample.face_locations Sample.face_encodings Sample.dist
      Sample.gallery_with_unknown [(0%nat, Some 1)] "hog".
Proof.
  intros H.
  specialize (H [(0%nat, Unknown, 0)] 0%nat 0%nat 1 Unknown 0 1 Unknown
                eq_refl eq_refl eq_refl eq_refl eq_refl).
  apply proj1 in H. specialize (H eq_refl).
  vm_compute in H. by apply H.
Qed.

Lemma recognize_faces_accept_rule_witness :
  Embedding.known_encodings Sample.gallery_alice ≠ []
  ∧ length (Embedding.known_names Sample.gallery_alice)
    = length (Embedding.known_encodings Sample.gallery_alice)
  ∧ ∃ results,
      Embedding.recognize_faces
        Sample.face_locations Sample.face_encodings Sample.dist
        Sample.gallery_alice [(7%nat, Some (1 # 10))] "hog" = Some results
      ∧ length results = 1%nat.
Proof.
  assert (H1 : Embedding.known_encodings Sample.gallery_alice ≠ [])
    by (vm_compute; discriminate).
  assert (H2 : length (Embedding.known_names Sample.gallery_alice)
               = length (Embedding.known_encodings Sample.gallery_alice))
    by reflexivity.
  split; [exact H1 |]. split; [exact H2 |].
  destruct (recognize_faces_accept_rule
              Sample.face_locations Sample.face_encodings Sample.dist
              Sample.gallery_alice [(7%nat, Some (1 # 10))] "hog" H1 H2)
    as (results & Hres & Hlen & _).
  exists results. split; [exact Hres | exact Hlen].
Defined.

Section EmbeddingResults.
Context {Frame Loc Enc : Type}.
Variable face_locations : Frame → string → list Loc.
Variable face_encodings : Frame → list Loc → list Enc.
Variable dist : Enc → Enc → Q.

Import Embedding.

(** What a result of the loop body can be, with no assumption on the
    engine: the default pair, or an accepted gallery entry. *)
Lemma recognize_one_inv (eng : FaceRecognitionEngine Enc) (face : Loc * Enc)
    (loc : Loc) (name : string) (conf : Q) :
  recognize_one dist eng face = Some (loc, name, conf) →
  loc = face.1
  ∧ ((name = Unknown ∧ conf = 0)
     ∨ ∃ best known,
         known_names eng !! best = Some name
         ∧ known_encodings eng !! best = Some known
         ∧ dist face.2 known <= tolerance eng
         ∧ conf = confidence_of_distance (dist face.2 known)).
Proof.
  destruct face as [l enc]. unfold recognize_one, compare_faces.
  case_bool_decide; [| intros [= <- <- <-]; auto].
  generalize (argmin (face_distance dist (known_encodings eng) enc)).
  intros best. unfold face_distance. rewrite !list_lookup_fmap.
  destruct (known_encodings eng !! best) as [known |] eqn:Hk;
    simpl; [| done].
  destruct (Qle_bool (dist enc known) (tolerance eng)) eqn:Hle; simpl;
    [| intros [= <- <- <-]; auto].
  destruct (known_names eng !! best) as [n |] eqn:Hn; simpl; [| done].
  intros [= <- <- <-]. split; [done |]. right.
  exists best, known. apply Qle_bool_iff in Hle. repeat split; done.
Qed.

Lemma recognize_faces_result (eng : FaceRecognitionEngine Enc) (frame : Frame)
    (model : string) (results : list (Loc * string * Q))
    (r : Loc * string * Q) :
  recognize_faces face_locations face_encodings dist eng frame model
  = Some results →
  r ∈ results →
  ∃ face, recognize_one dist eng face = Some r.
Proof.
  unfold recognize_faces. intros Hres Hr.
  destruct (known_encodings eng);
    [injection Hres as <-; by apply elem_of_nil in Hr |].
  destruct (detect_faces face_locations frame model) as [| l0 locs];
    [injection Hres as <-; by apply elem_of_nil in Hr |].
  apply mapM_Some in Hres.
  apply list_elem_of_lookup in Hr as [i Hi].
  destruct (Forall2_lookup_r _ _ _ _ _ Hres Hi) as (face & _ & Hface).
  by exists face.
Qed.

End EmbeddingResults.

(** ** Strategy B: recognition *)

Section ClassifierResults.
Context {Frame GrayImg Patch : Type}.
Variable cvtColor : Frame → GrayImg.
Variable detectMultiScale : GrayImg → list (Z * Z * Z * Z).
Variable crop_resize : GrayImg → Z * Z * Z * Z → Patch.
Variable predict : list Patch → list Z → Patch → Z * Q.

Import LBPH.



Lemma recognize_faces_elem (eng : FaceRecognitionEngine Patch) (frame : Frame)
    (model : string) (r : (Z * Z * Z * Z) * string * Q) :
  r ∈ recognize_faces cvtColor detectMultiScale crop_resize predict
        eng frame model →
  trained eng = true
  ∧ ∃ loc, loc ∈ detect_faces cvtColor detectMultiScale frame "hog"
           ∧ r = recognize_one crop_resize predict eng (cvtColor frame) loc.
Proof.
  unfold recognize_faces. destruct (trained eng).
  - intros Hr. apply list_elem_of_fmap in Hr as (loc & -> & Hloc). eauto.
  - intros Hr. by apply elem_of_nil in Hr.
Qed.


End ClassifierResults.


(** ** Confidence values of both strategies *)

Section Confidence.
Context {Frame Loc Enc : Type}.
Variable face_locations : Frame → string → list Loc.
Variable face_encodings : Frame → list Loc → list Enc.
Variable dist : Enc → Enc → Q.
Context {Scene GrayImg Patch : Type}.
Variable cvtColor : Scene → GrayImg.
Variable detectMultiScale : GrayImg → list (Z * Z * Z * Z).
Variable crop_resize : GrayImg → Z * Z * Z * Z → Patch.
Variable predict : list Patch → list Z → Patch → Z * Q.

(** A norm is never negative, and neither is the LBPH score (a
    chi-square distance between histograms). *)
Hypothesis dist_nonneg : ∀ a b, 0 <= dist a b.
Hypothesis score_nonneg : ∀ faces labels patch,
  0 <= (predict faces labels patch).2.

(** C7. The confidence of strategy A, [max(0, (1 - d) * 100)], never
    increases when the best distance [d] grows, and that of strategy B,
    [max(0, 100 - s)], never increases when the raw score [s] grows;
    both formulas stay within [0, 100] on every distance or score,
    those above 1 (where A gives 0) included; and every result tuple
    either engine returns has its confidence within [0, 100]. Below the
    clamp (distance under 1, score under 100) the decrease is strict. *)
Theorem confidence_monotone_and_clamped :
  (∀ d1 d2, d1 <= d2 →
     Embedding.confidence_of_distance d2 <= Embedding.confidence_of_distance d1)
  ∧ (∀ s1 s2, s1 <= s2 →
       LBPH.confidence_of_score s2 <= LBPH.confidence_of_score s1)
  ∧ (∀ d1 d2, d1 < d2 → d1 < 1 →
       Embedding.confidence_of_distance d2 < Embedding.confidence_of_distance d1)
  ∧ (∀ s1 s2, s1 < s2 → s1 < 100 →
       LBPH.confidence_of_score s2 < LBPH.confidence_of_score s1)
  ∧ (∀ d, 0 <= d → 0 <= Embedding.confidence_of_distance d <= 100)
  ∧ (∀ d, 1 <= d → Embedding.confidence_of_distance d = 0)
  ∧ (∀ s, 0 <= s → 0 <= LBPH.confidence_of_score s <= 100)
  ∧ (∀ eng frame model results loc name conf,
       Embedding.recognize_faces face_locations face_encodings dist
         eng frame model = Some results →
       (loc, name, conf) ∈ results → 0 <= conf <= 100)
  ∧ (∀ eng frame model loc name conf,
       (loc, name, conf)
         ∈ LBPH.recognize_faces cvtColor detectMultiScale crop_resize predict
             eng frame model →
       0 <= conf <= 100).
Proof.
  repeat apply conj.
  - intros d1 d2 Hd. apply pymax0_mono. lra.
  - intros s1 s2 Hs. apply pymax0_mono. lra.
  - intros d1 d2 Hlt H1. unfold Embedding.confidence_of_distance, pymax0.
    destruct (Qlt_le_dec 0 ((1 - d2) * 100)), (Qlt_le_dec 0 ((1 - d1) * 100));
      lra.
  - intros s1 s2 Hlt H1. unfold LBPH.confidence_of_score, pymax0.
    destruct (Qlt_le_dec 0 (100 - s2)), (Qlt_le_dec 0 (100 - s1)); lra.
  - apply confidence_of_distance_range.
  - intros d Hd. unfold Embedding.confidence_of_distance, pymax0.
    destruct (Qlt_le_dec 0 ((1 - d) * 100)); [lra | done].
  - apply confidence_of_score_range.
  - intros eng frame model results loc name conf Hres Hr.
    destruct (recognize_faces_result _ _ _ _ _ _ _ _ Hres Hr) as [face Hone].
    apply recognize_one_inv in Hone as [_ [[_ ->] | Hacc]]; [lra |].
    destruct Hacc as (best & known & _ & _ & _ & ->).
    apply confidence_of_distance_range, dist_nonneg.
  - intros eng frame model loc name conf Hr.
    apply recognize_faces_elem in Hr as (_ & l & _ & Hone).
    unfold LBPH.recognize_one in Hone.
    pose proof (score_nonneg (LBPH.recognizer eng).1 (LBPH.recognizer eng).2
                  (crop_resize (cvtColor frame) l)) as Hs.
    unfold LBPH.prediction in Hone.
    destruct (predict _ _ _) as [label score]. simpl in Hs.
    destruct (Qlt_le_dec score (LBPH.tolerance eng));
      [destruct (LBPH.label_to_name eng !! label) |];
      injection Hone as _ _ ->; try lra.
    by apply confidence_of_score_range.
Qed.

(** C10, amended. In every result tuple of either strategy: if the
    identity is the sentinel and no loaded gallery name ([known_names],
    the values of [label_to_name]) is the sentinel string, the
    confidence is exactly [0]; and a confidence different from [0] comes
    only with a name of the loaded gallery. *)
Theorem unknown_zero_confidence :
  (∀ eng frame model results loc name conf,
     Embedding.recognize_faces face_locations face_encodings dist
       eng frame model = Some results →
     (loc, name, conf) ∈ results →
     (name = Unknown → Unknown ∉ Embedding.known_names eng → conf = 0)
     ∧ (conf ≠ 0 → name ∈ Embedding.known_names eng))
  ∧ (∀ eng frame model loc name conf,
       (loc, name, conf)
         ∈ LBPH.recognize_faces cvtColor detectMultiScale crop_resize predict
             eng frame model →
       (name = Unknown →
        (∀ label, LBPH.label_to_name eng !! label ≠ Some Unknown) →
        conf = 0)
       ∧ (conf ≠ 0 → ∃ label, LBPH.label_to_name eng !! label = Some name)).
Proof.
  split.
  - intros eng frame model results loc name conf Hres Hr.
    destruct (recognize_faces_result _ _ _ _ _ _ _ _ Hres Hr) as [face Hone].
    apply recognize_one_inv in Hone as [_ [[-> ->] | Hacc]]; [done |].
    destruct Hacc as (best & known & Hname & _ & _ & ->).
    assert (name ∈ Embedding.known_names eng)
      by (apply list_elem_of_lookup; eauto).
    split; [intros -> Hnot; done | done].
  - intros eng frame model loc name conf Hr.
    apply recognize_faces_elem in Hr as (_ & l & _ & Hone).
    unfold LBPH.recognize_one in Hone.
    destruct (LBPH.prediction _ _ _ _ _) as [label score].
    destruct (Qlt_le_dec score (LBPH.tolerance eng));
      [destruct (LBPH.label_to_name eng !! label) eqn:Hl |];
      injection Hone as _ -> ->; try done.
    split; [| eauto]. intros -> Hnot. by destruct (Hnot label).
Qed.

End Confidence.

Lemma sample_dist_nonneg (a b : Q) : 0 <= Sample.dist a b.
Proof. apply Qabs_nonneg. Qed.

Lemma sample_score_nonneg (faces : list (Z * Z * Z * Z)) (labels : list Z)
    (patch : Z * Z * Z * Z) :
  0 <= (Sample.predict faces labels patch).2.
Proof.
  destruct patch as [[[t r] b] l]. simpl.
  unfold Qle. simpl. lia.
Qed.

Lemma confidence_monotone_and_clamped_witness :
  (∀ a b, 0 <= Sample.dist a b)
  ∧ (∀ faces labels patch, 0 <= (Sample.predict faces labels patch).2)
  ∧ Embedding.confidence_of_distance (3 # 2)
    <= Embedding.confidence_of_distance (1 # 2)
  ∧ 0 <= Embedding.confidence_of_distance (3 # 2) <= 100.
Proof.
  split; [exact sample_dist_nonneg |].
  split; [exact sample_score_nonneg |].
  destruct (confidence_monotone_and_clamped
              Sample.face_locations Sample.face_encodings Sample.dist
              Sample.cvtColor Sample.detectMultiScale Sample.crop_resize
              Sample.predict sample_dist_nonneg sample_score_nonneg)
    as (Hmono & _ & _ & _ & Hrange & _).
  split; [apply Hmono | apply Hrange]; vm_compute; discriminate.
Defined.

(** The first half of C10 fails when a person is enrolled under the name
    of the sentinel: against the gallery ("Unknown", 0) a probe with
    encoding 0.1 is accepted, so the result is ("Unknown", 90). *)
Lemma unknown_has_zero_confidence_fails :
  ¬ unknown_has_zero_confidence
      Sample.face_locations Sample.face_encodings Sample.dist
      Sample.gallery_with_unknown [(0%nat, Some (1 # 10))] "hog".
Proof.
  intros H.
  assert (Hres :
    Embedding.recognize_faces
      Sample.face_locations Sample.face_encodings Sample.dist
      Sample.gallery_with_unknown [(0%nat, Some (1 # 10))] "hog"
    = Some [(0%nat, Unknown,
             Embedding.confidence_of_distance (Sample.dist (1 # 10) 0))])
    by reflexivity.
  specialize (H _ _ _ _ Hres (list_elem_of_here _ _) eq_refl).
  vm_compute in H. discriminate.
Qed.

Lemma unknown_zero_confidence_witness :
  (Unknown ∉ Embedding.known_names Sample.gallery_alice)
  ∧ (∀ loc conf,
       ((loc, Unknown, conf) : nat * string * Q) ∈ [(7%nat, Unknown, 0)] →
       conf = 0).
Proof.
  assert (H1 : Unknown ∉ Embedding.known_names Sample.gallery_alice).
  { vm_compute. intros H. apply list_elem_of_In in H. simpl in H.
    destruct H as [H | []]. discriminate. }
  split; [exact H1 |]. intros loc conf Hr.
  destruct (unknown_zero_confidence
              Sample.face_locations Sample.face_encodings Sample.dist
              Sample.cvtColor Sample.detectMultiScale Sample.crop_resize
              Sample.predict) as [HA _].
  assert (Hres :
    Embedding.recognize_faces
      Sample.face_locations Sample.face_encodings Sample.dist
      Sample.gallery_alice [(7%nat, Some 1)] "hog"
    = Some [(7%nat, Unknown, 0)]) by reflexivity.
  destruct (HA _ _ _ _ _ _ _ Hres Hr) as [Hzero _].
  by apply Hzero.
Defined.

(** ** The gallery store *)

Section StoreFacts.
Context {Blob : Type}.
Implicit Types (db : Database.DatabaseManager Blob) (p : Database.person_row).

Import Database.

Lemma existsb_has_name (name : string) (l : list person_row) :
  existsb (has_name name) l = true ↔ name ∈ p_name <$> l.
Proof.
  rewrite existsb_exists, list_elem_of_fmap. unfold has_name.
  split.
  - intros (p & Hin & Hp). apply bool_decide_eq_true in Hp.
    exists p. split; [done | by apply list_elem_of_In].
  - intros (p & -> & Hin). exists p.
    split; [by apply list_elem_of_In | by apply bool_decide_eq_true].
Qed.

Lemma filter_none {A} (P : A → Prop) `{!∀ x, Decision (P x)} (l : list A) :
  (∀ x, x ∈ l → ¬ P x) → filter P l = [].
Proof.
  induction l as [| x l IH]; intros Hno; [done |].
  rewrite filter_cons, decide_False by (apply Hno; left).
  apply IH. intros y Hy. apply Hno. by right.
Qed.

(** Under UNIQUE, the SELECT of the handler finds the one row of that
    name, and that row is the only one the name filter keeps. *)
Lemma unique_name_row (l : list person_row) (p : person_row) :
  NoDup (p_name <$> l) → p ∈ l →
  find (has_name (p_name p)) l = Some p
  ∧ filter (λ q, p_name q = p_name p) l = [p].
Proof.
  induction l as [| q l IH]; intros Hnd Hin; [by apply elem_of_nil in Hin |].
  rewrite fmap_cons in Hnd.
  pose proof (NoDup_cons_1_1 _ _ Hnd) as Hq. apply NoDup_cons_1_2 in Hnd.
  assert (Hrest : p_name q = p_name p →
                  filter (λ r, p_name r = p_name p) l = []).
  { intros Heq. apply filter_none. intros r Hr Hrp.
    apply Hq. rewrite Heq, <- Hrp. by apply list_elem_of_fmap_2. }
  simpl. unfold has_name at 1. rewrite filter_cons.
  apply elem_of_cons in Hin as [-> | Hin].
  - rewrite bool_decide_eq_true_2 by done.
    rewrite decide_True by done. by rewrite Hrest.
  - assert (p_name q ≠ p_name p).
    { intros Heq. apply Hq. rewrite Heq. by apply list_elem_of_fmap_2. }
    rewrite bool_decide_eq_false_2 by done.
    rewrite decide_False by done. by apply IH.
Qed.

Lemma add_person_existing db (name now : string) p :
  NoDup (p_name <$> persons db) → p ∈ persons db → p_name p = name →
  add_person db name now = (db, Some (p_id p)).
Proof.
  intros Hnd Hin <-. unfold add_person.
  destruct (existsb _ _) eqn:Hex.
  - by rewrite (proj1 (unique_name_row _ _ Hnd Hin)).
  - apply not_true_iff_false in Hex. destruct Hex.
    apply existsb_has_name. by apply list_elem_of_fmap_2.
Qed.

Lemma add_person_new db (name now : string) :
  name ∉ p_name <$> persons db →
  add_person db name now
  = ({| persons := persons db ++ [PersonRow (seq_persons db + 1) name now];
        face_encodings := face_encodings db;
        seq_persons := (seq_persons db + 1)%Z;
        seq_face_encodings := seq_face_encodings db |},
     Some (seq_persons db + 1)%Z).
Proof.
  intros Hnew. unfold add_person.
  destruct (existsb _ _) eqn:Hex; [| done].
  by apply existsb_has_name in Hex.
Qed.

(** C8. In a store whose person names are unique (the UNIQUE constraint
    of the schema), [add_person] always returns an id; a second call
    with the same name returns the same id and leaves the store as the
    first call left it, with exactly one [persons] row of that name; and
    when the name is already present the first call itself changes
    nothing and returns the id of the existing row. *)
Theorem add_person_idempotent db (name now1 now2 : string) :
  NoDup (p_name <$> persons db) →
  let first := add_person db name now1 in
  let second := add_person first.1 name now2 in
  is_Some first.2
  ∧ second.2 = first.2
  ∧ second.1 = first.1
  ∧ length (filter (λ p, p_name p = name) (persons second.1)) = 1%nat
  ∧ (∀ p, p ∈ persons db → p_name p = name →
       first = (db, Some (p_id p))).
Proof.
  intros Hnd first second.
  assert (Hex : ∀ p, p ∈ persons db → p_name p = name →
                first = (db, Some (p_id p)))
    by (intros p Hin Hp; by apply add_person_existing).
  assert (Hkey : ∃ d p, first = (d, Some (p_id p))
                        ∧ NoDup (p_name <$> persons d)
                        ∧ p ∈ persons d ∧ p_name p = name).
  { destruct (decide (name ∈ p_name <$> persons db)) as [Hin | Hnew].
    - apply list_elem_of_fmap in Hin as (p & Hp & Hin).
      exists db, p. by rewrite (Hex p Hin).
    - subst first. rewrite (add_person_new _ _ _ Hnew).
      eexists _, (PersonRow (seq_persons db + 1) name now1).
      split; [done |]. simpl. split; [| split; [| done]].
      + rewrite fmap_app. apply list.NoDup_app. split; [done |].
        split; [| apply NoDup_singleton].
        intros x Hx Hx'. apply list_elem_of_singleton in Hx'. by subst.
      + apply elem_of_app. right. apply list_elem_of_singleton. done. }
  destruct Hkey as (d & p & Hfirst & Hnd' & Hin & Hp).
  split; [rewrite Hfirst; by eexists |].
  assert (Hsecond : second = (d, Some (p_id p))).
  { subst second. rewrite Hfirst. simpl. by apply add_person_existing. }
  rewrite Hsecond, Hfirst. simpl.
  split; [done |]. split; [done |]. split; [| by rewrite <- Hfirst].
  rewrite <- Hp. by rewrite (proj2 (unique_name_row _ _ Hnd' Hin)).
Qed.

End StoreFacts.

Lemma add_person_idempotent_witness :
  NoDup (Database.p_name
           <$> Database.persons (LBPH.db_manager Sample.alice_once))
  ∧ (Database.add_person (LBPH.db_manager Sample.alice_once)
       "alice" "2024-01-02T09:00:00").2 = Some 1%Z
  ∧ (Database.add_person
       (Database.add_person (LBPH.db_manager Sample.alice_once)
          "bob" "2024-01-02T09:00:00").1
       "bob" "2024-01-02T09:00:01").2 = Some 2%Z.
Proof.
  assert (H1 : NoDup (Database.p_name
                        <$> Database.persons
                              (LBPH.db_manager Sample.alice_once)))
    by (vm_compute; apply NoDup_singleton).
  split; [exact H1 |]. split.
  - destruct (add_person_idempotent (LBPH.db_manager Sample.alice_once)
                "alice" "2024-01-02T09:00:00" "2024-01-02T09:00:01" H1)
      as (_ & _ & _ & _ & Hold).
    rewrite (Hold (Database.PersonRow 1 "alice" "2024-01-01T10:00:00"));
      [reflexivity | vm_compute; left | reflexivity].
  - destruct (add_person_idempotent (LBPH.db_manager Sample.alice_once)
                "bob" "2024-01-02T09:00:00" "2024-01-02T09:00:01" H1)
      as (_ & -> & _).
    reflexivity.
Defined.

(** ** Registration *)

Lemma add_person_failure_keeps_store {Blob : Type}
    (db db1 : Database.DatabaseManager Blob) (name now : string) :
  Database.add_person db name now = (db1, None) → db1 = db.
Proof.
  unfold Database.add_person.
  destruct (existsb _ _); [| discriminate].
  by intros [= <- _].
Qed.

Section Registration.
Context {Frame Loc Enc : Type}.
Variable face_locations : Frame → string → list Loc.
Variable face_encodings : Frame → list Loc → list Enc.
Context {Scene GrayImg Patch : Type}.
Variable cvtColor : Scene → GrayImg.
Variable detectMultiScale : GrayImg → list (Z * Z * Z * Z).
Variable crop_resize : GrayImg → Z * Z * Z * Z → Patch.

(** C5. In both engines [register_face] needs exactly one detected
    face: with none it returns failure with the message "No face
    detected", with more than one it returns failure with the message
    "Multiple faces detected - only one person should be visible"; the
    success flag is [False] in both cases (and the engine is returned
    as it was). *)
Theorem register_face_requires_one_face :
  (∀ (eng : Embedding.FaceRecognitionEngine Enc) frame name now,
     (length (Embedding.detect_faces face_locations frame "hog") = 0%nat →
      Embedding.register_face face_locations face_encodings eng frame name now
      = (eng, (false, "No face detected")))
     ∧ ((1 < length (Embedding.detect_faces face_locations frame "hog"))%nat →
        Embedding.register_face face_locations face_encodings
          eng frame name now
        = (eng, (false,
             "Multiple faces detected - only one person should be visible"))))
  ∧ (∀ (eng : LBPH.FaceRecognitionEngine Patch) frame name now,
       (length (LBPH.detect_faces cvtColor detectMultiScale frame "hog")
        = 0%nat →
        LBPH.register_face cvtColor detectMultiScale crop_resize
          eng frame name now
        = (eng, (false, "No face detected")))
       ∧ ((1 < length (LBPH.detect_faces cvtColor detectMultiScale
                         frame "hog"))%nat →
          LBPH.register_face cvtColor detectMultiScale crop_resize
            eng frame name now
          = (eng, (false,
               "Multiple faces detected - only one person should be visible")))).
Proof.
  split; intros eng frame name now; split; intros Hlen.
  - unfold Embedding.register_face. by rewrite bool_decide_eq_true_2.
  - unfold Embedding.register_face.
    rewrite bool_decide_eq_false_2 by lia. by rewrite bool_decide_eq_true_2.
  - unfold LBPH.register_face.
    by destruct (LBPH.detect_faces cvtColor detectMultiScale frame "hog").
  - unfold LBPH.register_face.
    destruct (LBPH.detect_faces cvtColor detectMultiScale frame "hog")
      as [| l0 [| l1 locs]]; simpl in Hlen; [lia | lia | done].
Qed.

(** C9. Whenever [register_face] of either engine returns with the
    success flag [False], the engine it leaves behind, store and
    in-memory cache included, is the engine it was given: no person row,
    no feature record, no reload. In the embedding engine this covers
    the outcome "Failed to encode face", which one detected face does
    not exclude. *)
Theorem register_face_failure_atomic :
  (∀ (eng : Embedding.FaceRecognitionEngine Enc) frame name now,
     (Embedding.register_face face_locations face_encodings
        eng frame name now).2.1 = false →
     (Embedding.register_face face_locations face_encodings
        eng frame name now).1 = eng)
  ∧ (∀ (eng : Embedding.FaceRecognitionEngine Enc) frame name now,
       length (Embedding.detect_faces face_locations frame "hog") = 1%nat →
       Embedding.encode_faces face_encodings frame
         (Embedding.detect_faces face_locations frame "hog") = [] →
       Embedding.register_face face_locations face_encodings
         eng frame name now
       = (eng, (false, "Failed to encode face")))
  ∧ (∀ (eng : LBPH.FaceRecognitionEngine Patch) frame name now,
       (LBPH.register_face cvtColor detectMultiScale crop_resize
          eng frame name now).2.1 = false →
       (LBPH.register_face cvtColor detectMultiScale crop_resize
          eng frame name now).1 = eng).
Proof.
  split; [| split].
  - intros eng frame name now. unfold Embedding.register_face.
    repeat case_bool_decide; [done | done |].
    destruct (Embedding.encode_faces _ _ _); [done |].
    destruct (Database.add_person _ _ _) as [db1 [pid |]] eqn:Hadd;
      [discriminate |].
    intros _. apply add_person_failure_keeps_store in Hadd as ->.
    by destruct eng.
  - intros eng frame name now Hone Henc. unfold Embedding.register_face.
    rewrite bool_decide_eq_false_2 by lia.
    rewrite bool_decide_eq_false_2 by lia.
    by rewrite Henc.
  - intros eng frame name now. unfold LBPH.register_face.
    destruct (LBPH.detect_faces _ _ _ _) as [| l0 [| l1 locs]];
      [done | | done].
    destruct (Database.add_person _ _ _) as [db1 [pid |]] eqn:Hadd;
      [discriminate |].
    intros _. apply add_person_failure_keeps_store in Hadd as ->.
    by destruct eng.
Qed.

End Registration.

Lemma register_face_requires_one_face_witness :
  length (Embedding.detect_faces Sample.face_locations [] "hog") = 0%nat
  ∧ (1 < length (LBPH.detect_faces Sample.cvtColor Sample.detectMultiScale
                   [(30, 0, 100, 100)%Z; (300, 0, 100, 100)%Z] "hog"))%nat
  ∧ Embedding.register_face Sample.face_locations Sample.face_encodings
      Sample.gallery_alice [] "bob" "2024-01-02T09:00:00"
    = (Sample.gallery_alice, (false, "No face detected"))
  ∧ LBPH.register_face Sample.cvtColor Sample.detectMultiScale
      Sample.crop_resize Sample.alice_once
      [(30, 0, 100, 100)%Z; (300, 0, 100, 100)%Z] "bob" "2024-01-02T09:00:00"
    = (Sample.alice_once,
       (false, "Multiple faces detected - only one person should be visible")).
Proof.
  assert (H0 : length (Embedding.detect_faces Sample.face_locations [] "hog")
               = 0%nat) by reflexivity.
  assert (H2 : (1 < length (LBPH.detect_faces Sample.cvtColor
                              Sample.detectMultiScale
                              [(30, 0, 100, 100)%Z; (300, 0, 100, 100)%Z]
                              "hog"))%nat) by (simpl; lia).
  destruct (register_face_requires_one_face
              Sample.face_locations Sample.face_encodings
              Sample.cvtColor Sample.detectMultiScale Sample.crop_resize)
    as [HA HB].
  split; [exact H0 |]. split; [exact H2 |]. split.
  - exact (proj1 (HA Sample.gallery_alice [] "bob" "2024-01-02T09:00:00") H0).
  - exact (proj2 (HB Sample.alice_once _ "bob" "2024-01-02T09:00:00") H2).
Defined.

Lemma register_face_failure_atomic_witness :
  (Embedding.register_face Sample.face_locations Sample.face_encodings
     Sample.gallery_alice [(3%nat, None)] "bob" "2024-01-02T09:00:00").2.1
  = false
  ∧ (Embedding.register_face Sample.face_locations Sample.face_encodings
       Sample.gallery_alice [(3%nat, None)] "bob" "2024-01-02T09:00:00").1
    = Sample.gallery_alice.
Proof.
  assert (H : (Embedding.register_face
                 Sample.face_locations Sample.face_encodings
                 Sample.gallery_alice [(3%nat, None)] "bob"
                 "2024-01-02T09:00:00").2.1 = false) by reflexivity.
  split; [exact H |].
  exact (proj1 (register_face_failure_atomic
                  Sample.face_locations Sample.face_encodings
                  Sample.cvtColor Sample.detectMultiScale Sample.crop_resize)
           Sample.gallery_alice [(3%nat, None)] "bob" "2024-01-02T09:00:00" H).
Defined.

(** ** Enrollment *)

Section Enrollment.
Context {Frame GrayImg Patch : Type}.
Variable cvtColor : Frame → GrayImg.
Variable detectMultiScale : GrayImg → list (Z * Z * Z * Z).
Variable crop_resize : GrayImg → Z * Z * Z * Z → Patch.
Variable predict : list Patch → list Z → Patch → Z * Q.

Import App.

Lemma add_person_is_Some (db : Database.DatabaseManager Patch)
    (name now : string) :
  is_Some (Database.add_person db name now).2.
Proof.
  unfold Database.add_person.
  destruct (existsb _ _) eqn:Hex; simpl; [| by eexists].
  apply existsb_exists in Hex as (p & Hin & Hp).
  destruct (find _ _) eqn:Hfind; [by eexists |].
  apply (find_none _ _ Hfind) in Hin. congruence.
Qed.

(** With exactly one detected face the OpenCV engine always registers. *)
Lemma register_face_one_face (eng : LBPH.FaceRecognitionEngine Patch)
    (frame : Frame) (name now : string) :
  length (LBPH.detect_faces cvtColor detectMultiScale frame "hog") = 1%nat →
  (LBPH.register_face cvtColor detectMultiScale crop_resize
     eng frame name now).2 = (true, "Face registered successfully").
Proof.
  intros Hone. unfold LBPH.register_face.
  destruct (LBPH.detect_faces _ _ _ _) as [| l0 [| l1 locs]];
    [done | | done].
  destruct (add_person_is_Some (LBPH.db_manager eng) name now) as [pid Hpid].
  destruct (Database.add_person _ _ _) as [db1 person_id].
  simpl in Hpid. by subst.
Qed.

(** C6. One pass of the camera loop while the application is in
    registration mode (Capturing). [register_face] is called exactly
    when the frame shows one face, at least [capture_delay] (0.5 s by
    default) has passed since the last capture, and fewer than
    [target_samples] samples were taken; in particular only if the first
    two hold. A call that succeeds adds one to [registration_count] and
    sets [last_capture_time] to the current time (and with one face the
    call does succeed). A frame with no face or several faces makes no
    call and leaves the whole state, hence the mode, as it was. The
    mode becomes Idle exactly when a capture succeeded and brought the
    count up to [target_samples]. *)
Theorem enrollment_step (app : FacialRecognitionApp Patch) (frame : Frame)
    (current_time : Q) (now : string) :
  registration_mode app = true →
  let faces := LBPH.detect_faces cvtColor detectMultiScale frame "hog" in
  let step :=
    camera_loop_body cvtColor detectMultiScale crop_resize predict
      app frame current_time now in
  ∃ call,
    step.2 = Registration call
    ∧ (is_Some call ↔
       length faces = 1%nat
       ∧ capture_delay app <= current_time - last_capture_time app
       ∧ (registration_count app < target_samples app)%Z)
    ∧ (is_Some call → call = Some (true, "Face registered successfully"))
    ∧ (∀ msg, call = Some (true, msg) →
       registration_count step.1 = (registration_count app + 1)%Z
       ∧ last_capture_time step.1 = current_time)
    ∧ (length faces ≠ 1%nat → call = None ∧ step.1 = app)
    ∧ (registration_mode step.1 = false ↔
       (∃ msg, call = Some (true, msg))
       ∧ (target_samples app ≤ registration_count step.1)%Z).
Proof.
  intros Hmode faces step. subst step. unfold camera_loop_body.
  rewrite Hmode.
  destruct (process_registration_frame _ _ _ _ _ _ _) as [app' call] eqn:Hstep.
  exists call. split; [done |]. simpl.
  unfold process_registration_frame in Hstep. fold faces in Hstep.
  case_bool_decide as Hone.
  { injection Hstep as <- <-.
    repeat split; try done; try congruence;
      try (by intros [? ?]); try (by intros [[? ?] _]). }
  destruct (Qle_bool _ _) eqn:Hdelay.
  2: { injection Hstep as <- <-.
       repeat split; try done; try congruence;
         try (by intros [? ?]); try (by intros [[? ?] _]).
       intros (_ & Hle & _). apply Qle_bool_iff in Hle. congruence. }
  apply Qle_bool_iff in Hdelay.
  destruct (registration_count app <? target_samples app)%Z eqn:Hcount.
  2: { injection Hstep as <- <-. apply Z.ltb_ge in Hcount.
       repeat split; try done; try congruence;
         try (by intros [? ?]); try (by intros [[? ?] _]).
       intros (_ & _ & ?). lia. }
  apply Z.ltb_lt in Hcount.
  pose proof (register_face_one_face (face_engine app) frame
                (registration_name app) now Hone) as Hreg.
  destruct (LBPH.register_face _ _ _ _ _ _ _) as [eng [success msg]].
  injection Hreg as -> ->. simpl in Hstep.
  destruct (target_samples app <=? registration_count app + 1)%Z eqn:Hdone;
    injection Hstep as <- <-; simpl.
  - apply Z.leb_le in Hdone. repeat split; try done; by eexists.
  - apply Z.leb_gt in Hdone.
    repeat split; try done; try congruence; try (by eexists).
    intros [_ ?]. lia.
Qed.

End Enrollment.

Lemma enrollment_step_witness :
  App.registration_mode (Sample.capturing 9 0) = true
  ∧ ∃ call,
      (App.camera_loop_body Sample.cvtColor Sample.detectMultiScale
         Sample.crop_resize Sample.predict (Sample.capturing 9 0)
         [(30, 0, 100, 100)%Z] 1 "2024-01-02T09:00:00").2
      = App.Registration call
      ∧ is_Some call.
Proof.
  assert (H : App.registration_mode (Sample.capturing 9 0) = true)
    by reflexivity.
  split; [exact H |].
  destruct (enrollment_step Sample.cvtColor Sample.detectMultiScale
              Sample.crop_resize Sample.predict (Sample.capturing 9 0)
              [(30, 0, 100, 100)%Z] 1 "2024-01-02T09:00:00" H)
    as (call & Hout & Hcall & _).
  exists call. split; [exact Hout |].
  apply Hcall. split; [reflexivity |]. split; [| reflexivity].
  vm_compute. discriminate.
Defined.

(** ** Statistics of the OpenCV engine *)

Section ClassifierStatistics.
Context {Frame GrayImg Patch : Type}.
Variable cvtColor : Frame → GrayImg.
Variable detectMultiScale : GrayImg → list (Z * Z * Z * Z).
Variable crop_resize : GrayImg → Z * Z * Z * Z → Patch.

Import LBPH.

Lemma insert_desc_length (r : string * nat * string)
    (l : list (string * nat * string)) :
  length (Database.insert_desc r l) = S (length l).
Proof.
  induction l as [| r' l IH]; [done |]. simpl.
  destruct (String.ltb _ _); simpl; by rewrite ?IH.
Qed.

Lemma get_all_persons_length (db : Database.DatabaseManager Patch) :
  length (Database.get_all_persons db) = length (Database.persons db).
Proof.
  unfold Database.get_all_persons, Database.order_by_date_desc.
  rewrite <- (length_fmap
    (λ p, (Database.p_name p, Database.encoding_count db p,
           Database.p_registered_date p)) (Database.persons db)).
  induction (_ <$> Database.persons db) as [| r l IH]; [done |].
  simpl. by rewrite insert_desc_length, IH.
Qed.

(** The loop of [load_known_faces] hands out the labels
    [label_id, label_id + 1, ...], one per person. *)
Lemma collect_labels (db : Database.DatabaseManager Patch)
    (persons : list (string * nat * string)) (acc : training) :
  (∀ k, is_Some (t_label_to_name acc !! k) → (k < t_label_id acc)%Z) →
  let acc' := foldl (collect db) acc persons in
  size (t_label_to_name acc')
  = (size (t_label_to_name acc) + length persons)%nat
  ∧ (∀ k, is_Some (t_label_to_name acc' !! k) → (k < t_label_id acc')%Z).
Proof.
  revert acc. induction persons as [| person persons IH]; intros acc Hlt.
  - simpl. split; [lia | done].
  - simpl.
    destruct (IH (collect db acc person)) as [Hsize Hbound].
    { intros k. unfold collect. simpl.
      rewrite lookup_insert. case_decide; [lia |].
      intros Hk. apply Hlt in Hk. lia. }
    split; [| done]. rewrite Hsize. unfold collect. simpl.
    rewrite map_size_insert_None; [lia |].
    apply eq_None_not_Some. intros Hk. apply Hlt in Hk. lia.
Qed.

(** After a reload over a non-empty [persons] table, [label_to_name]
    has one entry per person, whatever the number of stored records. *)
Lemma load_known_faces_labels (eng : FaceRecognitionEngine Patch) :
  Database.persons (db_manager eng) ≠ [] →
  size (label_to_name (load_known_faces eng).1)
  = length (Database.persons (db_manager eng)).
Proof.
  intros Hne. unfold load_known_faces.
  pose proof (get_all_persons_length (db_manager eng)) as Hlen.
  destruct (Database.get_all_persons (db_manager eng)) as [| r l] eqn:Hall.
  { destruct (Database.persons (db_manager eng)); done. }
  rewrite <- Hlen.
  destruct (collect_labels (db_manager eng) (r :: l)
              {| t_label_to_name := ∅; t_name_to_label := ∅;
                 t_faces := []; t_labels := []; t_label_id := 0 |})
    as [Hsize _].
  { intros k. simpl. rewrite lookup_empty. by intros [? ?]. }
  simpl in Hsize. rewrite map_size_empty in Hsize.
  case_bool_decide; simpl; by rewrite Hsize.
Qed.

Lemma load_known_faces_db (eng : FaceRecognitionEngine Patch) :
  db_manager (load_known_faces eng).1 = db_manager eng.
Proof.
  unfold load_known_faces.
  destruct (Database.get_all_persons _); [done |].
  by case_bool_decide.
Qed.

Lemma add_person_persons_nonempty (db : Database.DatabaseManager Patch)
    (name now : string) :
  Database.persons (Database.add_person db name now).1 ≠ [].
Proof.
  unfold Database.add_person.
  destruct (existsb _ _) eqn:Hex; simpl.
  - apply existsb_exists in Hex as (p & Hin & _).
    by destruct (Database.persons db).
  - by destruct (Database.persons db).
Qed.

(** X15. After any registration that succeeds, the [total_encodings]
    the OpenCV engine reports is its number of persons. *)
Lemma register_face_total_encodings (eng : FaceRecognitionEngine Patch)
    (frame : Frame) (name now : string) :
  let registered :=
    register_face cvtColor detectMultiScale crop_resize eng frame name now in
  registered.2.1 = true →
  total_encodings (get_statistics registered.1)
  = total_persons (get_statistics registered.1).
Proof.
  intros registered. subst registered. unfold register_face.
  destruct (detect_faces _ _ _ _) as [| l0 [| l1 locs]]; [done | | done].
  pose proof (add_person_persons_nonempty (db_manager eng) name now) as Hne.
  destruct (Database.add_person _ _ _) as [db1 [pid |]]; [| done].
  intros _. simpl in *. unfold get_statistics. simpl.
  rewrite load_known_faces_labels, load_known_faces_db; [done |].
  simpl. by destruct (Database.persons db1).
Qed.

End ClassifierStatistics.

(** ** Statistics of the embedding engine *)

Lemma filter_unique_key {A K : Type} `{EqDecision K} (key : A → K)
    (l : list A) (x : A) :
  NoDup (key <$> l) → x ∈ l → filter (λ y, key y = key x) l = [x].
Proof.
  induction l as [| y l IH]; intros Hnd Hin; [by apply elem_of_nil in Hin |].
  rewrite fmap_cons in Hnd.
  pose proof (NoDup_cons_1_1 _ _ Hnd) as Hy. apply NoDup_cons_1_2 in Hnd.
  rewrite filter_cons. apply elem_of_cons in Hin as [-> | Hin].
  - rewrite decide_True by done. f_equal.
    apply filter_none. intros z Hz Hzy. apply Hy. rewrite <- Hzy.
    by apply list_elem_of_fmap_2.
  - rewrite decide_False; [by apply IH |].
    intros Heq. apply Hy. rewrite Heq. by apply list_elem_of_fmap_2.
Qed.

Lemma bind_singleton_fmap {A B : Type} (g : A → B) (l : list A) :
  l ≫= (λ x, [g x]) = g <$> l.
Proof. induction l as [| x l IH]; [done |]. by rewrite bind_cons, IH. Qed.

Section EmbeddingStatistics.
Context {Frame Loc Enc : Type}.
Variable face_locations : Frame → string → list Loc.
Variable face_encodings : Frame → list Loc → list Enc.

Import Embedding.

Lemma join_rows_add_face_encoding (db : Database.DatabaseManager Enc)
    (pid : Z) (enc : Enc) (now : string) :
  Database.join_rows (Database.add_face_encoding db pid enc now)
  = Database.join_rows db
    ++ ((λ p, (Database.EncodingRow
                 (Database.seq_face_encodings db + 1) pid enc now, p))
          <$> filter (λ p, Database.p_id p = pid) (Database.persons db)).
Proof.
  unfold Database.join_rows, Database.add_face_encoding. simpl.
  rewrite bind_app. f_equal.
  rewrite bind_cons. simpl. rewrite app_nil_r.
  apply bind_singleton_fmap.
Qed.

(** A person row with a fresh id joins with no stored record. *)
Lemma join_rows_fresh_person (db : Database.DatabaseManager Enc)
    (name now : string) :
  Forall (λ fe, (Database.e_person_id fe ≤ Database.seq_persons db)%Z)
    (Database.face_encodings db) →
  Database.join_rows
    {| Database.persons :=
         Database.persons db
         ++ [Database.PersonRow (Database.seq_persons db + 1) name now];
       Database.face_encodings := Database.face_encodings db;
       Database.seq_persons := (Database.seq_persons db + 1)%Z;
       Database.seq_face_encodings := Database.seq_face_encodings db |}
  = Database.join_rows db.
Proof.
  unfold Database.join_rows. simpl.
  induction 1 as [| fe fes Hfe Hfes IH]; [done |].
  rewrite !bind_cons, IH. f_equal.
  rewrite list.filter_app, filter_cons, decide_False by (simpl; lia).
  by rewrite filter_nil, app_nil_r.
Qed.

Lemma person_exists_spec (db : Database.DatabaseManager Enc) (name : string) :
  Database.person_exists db name = true
  ↔ name ∈ Database.p_name <$> Database.persons db.
Proof.
  unfold Database.person_exists. rewrite bool_decide_eq_true.
  rewrite list_elem_of_fmap. split.
  - intros Hpos.
    destruct (filter _ _) as [| p l] eqn:Hf; [simpl in Hpos; lia |].
    assert (Hp : p ∈ filter (λ p, Database.p_name p = name)
                       (Database.persons db)) by (rewrite Hf; left).
    apply list_elem_of_filter in Hp as [Hp Hin]. by exists p.
  - intros (p & -> & Hin).
    assert (Hp : p ∈ filter (λ q, Database.p_name q = Database.p_name p)
                       (Database.persons db))
      by (by apply list_elem_of_filter).
    destruct (filter _ _); [by apply elem_of_nil in Hp | simpl; lia].
Qed.

(** X14. The embedding engine does what C2 says: with a cache that
    mirrors a well-formed store, a registration that succeeds adds one
    to [total_encodings], and one or nothing to [total_persons]
    according to whether the name is new. *)
Lemma register_face_statistics (eng : FaceRecognitionEngine Enc)
    (frame : Frame) (name now : string) :
  Database.db_wf (db_manager eng) → in_sync eng →
  let registered :=
    register_face face_locations face_encodings eng frame name now in
  registered.2.1 = true →
  total_encodings (get_statistics registered.1)
  = S (total_encodings (get_statistics eng))
  ∧ total_persons (get_statistics registered.1)
    = (total_persons (get_statistics eng)
       + if Database.person_exists (db_manager eng) name then 0 else 1)%nat.
Proof.
  intros [Hnames Hids Hseq Hrefs] [Hsync _] registered. subst registered.
  unfold register_face. repeat case_bool_decide; [done | done |].
  destruct (encode_faces _ _ _) as [| enc encs]; [done |].
  unfold get_statistics at 2 4. simpl. rewrite Hsync.
  unfold Database.get_all_encodings. rewrite !length_fmap.
  destruct (decide (name ∈ Database.p_name <$> Database.persons (db_manager eng)))
    as [Hin | Hnew].
  - rewrite (proj2 (person_exists_spec _ _) Hin).
    apply list_elem_of_fmap in Hin as (p & Hp & Hin).
    rewrite (add_person_existing _ name now p Hnames Hin (eq_sym Hp)).
    intros _. simpl. unfold Database.get_all_encodings.
    rewrite !length_fmap, join_rows_add_face_encoding, length_app, length_fmap.
    rewrite (filter_unique_key Database.p_id _ p Hids Hin). simpl.
    unfold Database.get_person_count. simpl. lia.
  - rewrite (add_person_new _ _ now Hnew). intros _. simpl.
    destruct (Database.person_exists _ _) eqn:Hex;
      [by apply person_exists_spec in Hex |].
    unfold Database.get_all_encodings.
    rewrite !length_fmap, join_rows_add_face_encoding, length_app, length_fmap.
    rewrite join_rows_fresh_person by done. simpl.
    rewrite list.filter_app, filter_cons, decide_True by done.
    rewrite (filter_none (λ p, Database.p_id p = _)).
    + simpl. unfold Database.get_person_count. simpl.
      rewrite length_app. simpl. lia.
    + intros q Hq Hqid. apply (proj1 (list.Forall_forall _ _) Hseq) in Hq. lia.
Qed.

End EmbeddingStatistics.

(** ** Deletion *)

Section Deletion.
Context {Frame Loc Enc : Type}.
Variable face_locations : Frame → string → list Loc.
Variable face_encodings : Frame → list Loc → list Enc.
Variable dist : Enc → Enc → Q.

Import Embedding.

(** [delete_person] rewrites the [persons] table only. *)
Lemma delete_person_keeps_face_encodings (db : Database.DatabaseManager Enc)
    (name : string) :
  Database.face_encodings (Database.delete_person db name).1
  = Database.face_encodings db.
Proof. reflexivity. Qed.

Lemma delete_person_removes_name (db : Database.DatabaseManager Enc)
    (name : string) :
  name ∉ Database.p_name <$> Database.persons (Database.delete_person db name).1.
Proof.
  simpl. intros Hin. apply list_elem_of_fmap in Hin as (p & -> & Hp).
  by apply list_elem_of_filter in Hp as [Hp _].
Qed.

(** X7. [delete_person] of the store returns [True] ([rowcount > 0])
    exactly when a person row bore the name. *)
Lemma delete_person_reports_removal (db : Database.DatabaseManager Enc)
    (name : string) :
  (Database.delete_person db name).2 = true
  ↔ name ∈ Database.p_name <$> Database.persons db.
Proof.
  simpl. rewrite bool_decide_eq_true, list_elem_of_fmap. split.
  - intros Hlt.
    induction (Database.persons db) as [| p l IH]; [simpl in Hlt; lia |].
    rewrite filter_cons in Hlt. case_decide as Hp.
    + destruct IH as (q & Hq & Hin); [simpl in Hlt |- *; lia |].
      exists q. split; [done | by right].
    + exists p. split; [done | left].
  - intros (p & -> & Hin).
    pose proof (length_filter_lt (λ q, Database.p_name q ≠ Database.p_name p)
                  (Database.persons db) p Hin) as Hlt.
    assert (¬ Database.p_name p ≠ Database.p_name p) as Hnn by (intros H; done).
    specialize (Hlt Hnn). lia.
Qed.

(** After a deletion the reloaded cache no longer holds the name. *)
Lemma delete_person_forgets (eng : FaceRecognitionEngine Enc) (name : string) :
  (delete_person eng name).2 = true →
  name ∉ known_names (delete_person eng name).1.
Proof.
  unfold delete_person.
  destruct (Database.delete_person (db_manager eng) name) as [db1 success]
    eqn:Hdel.
  destruct success; [intros _ | done]. simpl.
  pose proof (delete_person_removes_name (db_manager eng) name) as Hgone.
  rewrite Hdel in Hgone. simpl in Hgone.
  intros Hin. apply Hgone.
  apply list_elem_of_fmap in Hin as ([n enc] & -> & Hrow). simpl.
  unfold Database.get_all_encodings in Hrow.
  apply list_elem_of_fmap in Hrow as ([fe p] & [= -> ->] & Hjoin).
  unfold Database.join_rows in Hjoin.
  apply list_elem_of_bind in Hjoin as (fe' & Hp & _).
  apply list_elem_of_bind in Hp as (p' & Hp' & Hin).
  apply list_elem_of_singleton in Hp' as [= -> ->].
  apply list_elem_of_filter in Hin as [_ Hin].
  by apply list_elem_of_fmap_2.
Qed.

(** X12. After [delete_person] of the embedding engine has reported a
    removal, no later recognition on the engine it leaves returns the
    deleted name (the sentinel string apart). *)
Lemma delete_person_never_recognized (eng : FaceRecognitionEngine Enc)
    (name : string) (frame : Frame) (model : string)
    (results : list (Loc * string * Q)) (loc : Loc) (conf : Q) :
  (delete_person eng name).2 = true →
  name ≠ Unknown →
  recognize_faces face_locations face_encodings dist
    (delete_person eng name).1 frame model = Some results →
  (loc, name, conf) ∉ results.
Proof.
  intros Hdel Hname Hres Hin.
  destruct (recognize_faces_result _ _ _ _ _ _ _ _ Hres Hin) as [face Hone].
  apply recognize_one_inv in Hone as [_ [[? _] | Hacc]]; [done |].
  destruct Hacc as (best & known & Hbest & _).
  apply (delete_person_forgets eng name Hdel).
  apply list_elem_of_lookup. eauto.
Qed.

End Deletion.

(** C3 on a concrete store. The gallery holds alice with one feature
    record. [delete_person] reports a removal, the [persons] row is gone
    and the reloaded cache no longer knows alice, but her feature record
    is still in the [face_encodings] table: the claim's "and all of its
    stored feature records" is not what the store does. *)
Theorem delete_person_orphans_records :
  let deleted := Embedding.delete_person Sample.gallery_alice "alice" in
  Database.face_encodings (Embedding.db_manager Sample.gallery_alice)
  = [Database.EncodingRow 1 1 0 "2024-01-01T10:00:00"]
  ∧ deleted.2 = true
  ∧ Database.persons (Embedding.db_manager deleted.1) = []
  ∧ Embedding.known_names deleted.1 = []
  ∧ Database.face_encodings (Embedding.db_manager deleted.1)
    = [Database.EncodingRow 1 1 0 "2024-01-01T10:00:00"].
Proof. repeat split. Qed.

(** C2 on a concrete store, OpenCV engine. Alice is enrolled with one
    sample; a second frame with exactly one face is registered under
    the same name. The call succeeds and the store holds two records,
    yet [total_encodings] is 1 before and 1 after (it counts labels,
    that is persons); [total_persons] is unchanged, as the claim says. *)
Theorem second_sample_not_counted :
  let before := LBPH.get_statistics Sample.alice_once in
  let registered :=
    LBPH.register_face Sample.cvtColor Sample.detectMultiScale
      Sample.crop_resize Sample.alice_once
      [(32, 0, 100, 100)%Z] "alice" "2024-01-01T10:00:01" in
  let after := LBPH.get_statistics registered.1 in
  registered.2 = (true, "Face registered successfully")
  ∧ length (Database.face_encodings (LBPH.db_manager Sample.alice_once))
    = 1%nat
  ∧ length (Database.face_encodings (LBPH.db_manager registered.1)) = 2%nat
  ∧ LBPH.total_encodings before = 1%nat
  ∧ LBPH.total_encodings after = 1%nat
  ∧ LBPH.total_persons after = LBPH.total_persons before.
Proof. repeat split. Qed.

(** ** The invariants are those of every reachable engine *)

Section Invariants.
Context {Frame Loc Enc : Type}.
Variable detector : Frame → string → list Loc.
Variable encoder : Frame → list Loc → list Enc.

Import Database.

Lemma create_tables_wf : db_wf (create_tables (Blob := Enc)).
Proof. split; simpl; constructor. Qed.

Lemma add_person_wf (db : DatabaseManager Enc) (name now : string) :
  db_wf db →
  db_wf (add_person db name now).1
  ∧ ∀ pid, (add_person db name now).2 = Some pid →
           (pid ≤ seq_persons (add_person db name now).1)%Z.
Proof.
  intros [Hnames Hids Hseq Hrefs].
  destruct (decide (name ∈ p_name <$> persons db)) as [Hin | Hnew].
  - apply list_elem_of_fmap in Hin as (p & Hp & Hin).
    rewrite (add_person_existing db name now p Hnames Hin (eq_sym Hp)).
    split; [done |]. simpl. intros pid [= <-].
    by apply (proj1 (list.Forall_forall _ _) Hseq).
  - rewrite (add_person_new db name now Hnew). simpl.
    split; [| intros pid [= <-]; lia]. split; simpl.
    + rewrite fmap_app. apply list.NoDup_app. split; [done |].
      split; [| apply NoDup_singleton].
      intros x Hx Hx'. apply list_elem_of_singleton in Hx'. by subst.
    + rewrite fmap_app. apply list.NoDup_app. split; [done |].
      split; [| apply NoDup_singleton].
      intros x Hx Hx'. apply list_elem_of_singleton in Hx'. simpl in Hx'.
      subst. apply list_elem_of_fmap in Hx as (q & Hq & Hin).
      apply (proj1 (list.Forall_forall _ _) Hseq) in Hin. lia.
    + apply Forall_app. split.
      * eapply list.Forall_impl; [exact Hseq |]. simpl. intros; lia.
      * apply Forall_singleton. simpl. lia.
    + eapply list.Forall_impl; [exact Hrefs |]. simpl. intros; lia.
Qed.

Lemma add_face_encoding_wf (db : DatabaseManager Enc) (pid : Z) (enc : Enc)
    (now : string) :
  db_wf db → (pid ≤ seq_persons db)%Z →
  db_wf (add_face_encoding db pid enc now).
Proof.
  intros [Hnames Hids Hseq Hrefs] Hpid. split; simpl; try done.
  apply Forall_app. split; [done |]. by apply Forall_singleton.
Qed.

Lemma delete_person_wf (db : DatabaseManager Enc) (name : string) :
  db_wf db → db_wf (delete_person db name).1.
Proof.
  intros [Hnames Hids Hseq Hrefs]. split; simpl; try done.
  - eapply sublist_NoDup; [exact Hnames |].
    apply fmap_sublist, sublist_filter.
  - eapply sublist_NoDup; [exact Hids |].
    apply fmap_sublist, sublist_filter.
  - apply list.Forall_forall. intros p Hp.
    apply list_elem_of_filter in Hp as [_ Hp].
    by apply (proj1 (list.Forall_forall _ _) Hseq).
Qed.

Lemma load_known_faces_in_sync (eng : Embedding.FaceRecognitionEngine Enc) :
  Embedding.in_sync (Embedding.load_known_faces eng).1
  ∧ Embedding.db_manager (Embedding.load_known_faces eng).1
    = Embedding.db_manager eng.
Proof. done. Qed.

(** X16. On a well-formed store with a cache that mirrors it,
    [register_face] of the embedding engine keeps the store well formed
    and the cache mirroring it, whether it succeeds or fails. *)
Lemma register_face_invariant (eng : Embedding.FaceRecognitionEngine Enc)
    (frame : Frame) (name now : string) :
  db_wf (Embedding.db_manager eng) → Embedding.in_sync eng →
  let registered :=
    Embedding.register_face detector encoder
      eng frame name now in
  db_wf (Embedding.db_manager registered.1) ∧ Embedding.in_sync registered.1.
Proof.
  intros Hwf Hsync registered. subst registered.
  unfold Embedding.register_face.
  repeat case_bool_decide; [done | done |].
  destruct (Embedding.encode_faces _ _ _) as [| enc encs]; [done |].
  destruct (add_person_wf (Embedding.db_manager eng) name now Hwf)
    as [Hwf1 Hpid].
  destruct (add_person _ _ _) as [db1 [pid |]] eqn:Hadd; simpl in *.
  - split; [| done]. apply add_face_encoding_wf; [done | by apply Hpid].
  - apply add_person_failure_keeps_store in Hadd as ->.
    by destruct eng.
Qed.

End Invariants.

(** ** Defaults *)

Lemma load_known_faces_tolerance {Patch : Type}
    (eng : LBPH.FaceRecognitionEngine Patch) :
  LBPH.tolerance (LBPH.load_known_faces eng).1 = LBPH.tolerance eng.
Proof.
  unfold LBPH.load_known_faces.
  destruct (Database.get_all_persons _); [done |].
  by case_bool_decide.
Qed.

Lemma defaults (db : Database.DatabaseManager (Z * Z * Z * Z)) :
  Embedding.default_tolerance == 0.6
  ∧ LBPH.default_tolerance == 100
  ∧ App.capture_delay (App.init db) == 0.5
  ∧ App.target_samples (App.init db) = 10%Z
  ∧ LBPH.tolerance (App.face_engine (App.init db)) == 80.
Proof.
  repeat split; try reflexivity.
  unfold App.init, LBPH.init. simpl.
  by rewrite load_known_faces_tolerance.
Qed.

(** * Further properties *)

(** ** The gallery store, continued *)

Section StoreQueries.
Context {Blob : Type}.
Implicit Types (db : Database.DatabaseManager Blob) (p : Database.person_row).

Import Database.

Lemma filter_bind {A B : Type} (P : B → Prop) `{!∀ x, Decision (P x)}
    (f : A → list B) (l : list A) :
  filter P (l ≫= f) = l ≫= (λ x, filter P (f x)).
Proof.
  induction l as [| x l IH]; [done |].
  by rewrite !bind_cons, list.filter_app, IH.
Qed.

(** X1. Round trip of a stored record. In a store with unique person
    ids, a payload written by [add_face_encoding] for an existing person
    is read back by [get_person_encodings] under that person's name, as
    the last element and as written; the lists of all other names are
    unchanged; [get_all_encodings] gains exactly the pair (name,
    payload); and the person's record count goes up by one. *)
Theorem stored_record_read_back db p (enc : Blob) (now : string) :
  NoDup (p_id <$> persons db) → p ∈ persons db →
  let db' := add_face_encoding db (p_id p) enc now in
  get_person_encodings db' (p_name p)
  = get_person_encodings db (p_name p) ++ [enc]
  ∧ (∀ name, name ≠ p_name p →
       get_person_encodings db' name = get_person_encodings db name)
  ∧ get_all_encodings db' = get_all_encodings db ++ [(p_name p, enc)]
  ∧ encoding_count db' p = S (encoding_count db p).
Proof.
  intros Hids Hin db'. subst db'.
  unfold get_person_encodings, get_all_encodings, encoding_count.
  rewrite join_rows_add_face_encoding.
  rewrite (filter_unique_key p_id _ p Hids Hin). simpl.
  rewrite !list.filter_app, !fmap_app, !filter_cons, !filter_nil. simpl.
  rewrite decide_True by done. rewrite decide_True by done.
  repeat split; try done.
  - intros name Hname. rewrite list.filter_app, filter_cons, filter_nil. simpl.
    rewrite decide_False by done. by rewrite fmap_app, app_nil_r.
  - rewrite length_app. simpl. lia.
Qed.


Lemma insert_desc_perm (r : string * nat * string)
    (l : list (string * nat * string)) :
  insert_desc r l ≡ₚ r :: l.
Proof.
  induction l as [| r' l IH]; [done |]. simpl.
  destruct (String.ltb _ _); [| done].
  rewrite IH. apply Permutation_swap.
Qed.

Lemma ltb_asym (a b : string) :
  String.ltb a b = true → String.ltb b a = false.
Proof.
  unfold String.ltb. rewrite (String.compare_antisym a b).
  by destruct (String.compare b a).
Qed.

(** No row is followed by a row with a later date. *)
Lemma insert_desc_sorted (r : string * nat * string)
    (l : list (string * nat * string)) :
  (∀ i a b, l !! i = Some a → l !! S i = Some b → String.ltb a.2 b.2 = false) →
  ∀ i a b, insert_desc r l !! i = Some a → insert_desc r l !! S i = Some b →
           String.ltb a.2 b.2 = false.
Proof.
  induction l as [| r' l IH]; intros Hl i a b Ha Hb.
  - destruct i; simpl in *; done.
  - simpl in Ha, Hb. destruct (String.ltb r.2 r'.2) eqn:Hlt.
    + destruct i as [| i]; simpl in Ha, Hb.
      * injection Ha as <-.
        destruct l as [| r'' l]; simpl in Hb.
        -- injection Hb as <-. by apply ltb_asym.
        -- destruct (String.ltb r.2 r''.2) eqn:Hlt'.
           ++ injection Hb as <-. by apply (Hl 0%nat).
           ++ injection Hb as <-. by apply ltb_asym.
      * apply (IH (λ j, Hl (S j)) i); done.
    + destruct i as [| i]; simpl in Ha, Hb.
      * injection Ha as <-. injection Hb as <-. done.
      * by apply (Hl i).
Qed.

Lemma get_all_persons_perm db :
  get_all_persons db
  ≡ₚ (λ p, (p_name p, encoding_count db p, p_registered_date p))
       <$> persons db.
Proof.
  unfold get_all_persons, order_by_date_desc.
  induction (_ <$> persons db) as [| r l IH]; [done |].
  simpl. by rewrite insert_desc_perm, IH.
Qed.

Lemma get_all_persons_names db (name : string) :
  (∃ row, row ∈ get_all_persons db ∧ row.1.1 = name)
  ↔ name ∈ p_name <$> persons db.
Proof.
  split.
  - intros (row & Hrow & <-). rewrite get_all_persons_perm in Hrow.
    apply list_elem_of_fmap in Hrow as (p & -> & Hp). simpl.
    by apply list_elem_of_fmap_2.
  - intros Hin. apply list_elem_of_fmap in Hin as (p & -> & Hp).
    exists (p_name p, encoding_count db p, p_registered_date p).
    split; [| done]. rewrite get_all_persons_perm.
    by apply (list_elem_of_fmap_2
                (λ p, (p_name p, encoding_count db p, p_registered_date p))).
Qed.

(** X2. [get_all_persons] returns one row per person, a rearrangement
    of the [persons] table with each person's record count, and in it
    no row is followed by a row with a later registration date
    (ORDER BY registered_date DESC). *)
Theorem get_all_persons_sorted db :
  get_all_persons db
  ≡ₚ (λ p, (p_name p, encoding_count db p, p_registered_date p))
       <$> persons db
  ∧ (∀ i a b,
       get_all_persons db !! i = Some a →
       get_all_persons db !! S i = Some b →
       String.ltb a.2 b.2 = false)
  ∧ length (get_all_persons db) = get_person_count db.
Proof.
  split; [apply get_all_persons_perm |].
  split; [| apply get_all_persons_length].
  unfold get_all_persons, order_by_date_desc.
  induction (_ <$> persons db) as [| r l IH]; [by intros [] |].
  simpl. by apply insert_desc_sorted.
Qed.

(** X5. [add_person] and [person_exists] agree: the person count grows
    by one exactly when [person_exists] was false, the store is left
    untouched exactly when it was true, and afterwards [person_exists]
    holds for the name in both cases. *)
Theorem add_person_counts db (name now : string) :
  get_person_count (add_person db name now).1
  = (get_person_count db + if person_exists db name then 0 else 1)%nat
  ∧ (person_exists db name = true ↔ (add_person db name now).1 = db)
  ∧ person_exists (add_person db name now).1 name = true.
Proof.
  destruct (decide (name ∈ p_name <$> persons db)) as [Hin | Hnew].
  - pose proof (proj2 (person_exists_spec db name) Hin) as Hex.
    rewrite Hex. unfold add_person.
    rewrite (proj2 (existsb_has_name name (persons db)) Hin). simpl.
    split; [unfold get_person_count; lia |]. done.
  - destruct (person_exists db name) eqn:Hex;
      [by apply person_exists_spec in Hex |].
    rewrite (add_person_new db name now Hnew). simpl.
    split; [unfold get_person_count; simpl; rewrite length_app; simpl; lia |].
    split.
    + split; [done |]. intros Heq.
      apply (f_equal (λ d, length (persons d))) in Heq. simpl in Heq.
      rewrite length_app in Heq. simpl in Heq. lia.
    + apply person_exists_spec. simpl. rewrite fmap_app.
      apply elem_of_app. right. simpl. left.
Qed.

(** Deleting a name nobody bears. *)
Lemma delete_person_absent db (name : string) :
  name ∉ p_name <$> persons db → delete_person db name = (db, false).
Proof.
  intros Habs. unfold delete_person.
  assert (Hkeep : filter (λ p, p_name p ≠ name) (persons db) = persons db).
  { induction (persons db) as [| p l IH]; [done |].
    rewrite fmap_cons in Habs. apply not_elem_of_cons in Habs as [Hp Hl].
    rewrite filter_cons, decide_True by done. by rewrite IH. }
  rewrite Hkeep, Nat.sub_diag. destruct db. simpl. f_equal.
Qed.

Lemma join_one_delete (fe : encoding_row Blob) (name : string)
    (l : list person_row) :
  pair fe <$> filter (λ p, p_id p = e_person_id fe)
                (filter (λ p, p_name p ≠ name) l)
  = filter (λ r : encoding_row Blob * person_row, p_name r.2 ≠ name)
      (pair fe <$> filter (λ p, p_id p = e_person_id fe) l).
Proof.
  induction l as [| p l IHl]; [done |].
  rewrite (filter_cons (λ q, p_name q ≠ name)).
  rewrite (filter_cons (λ q, p_id q = e_person_id fe) p l).
  destruct (decide (p_name p ≠ name)) as [Hn | Hn],
           (decide (p_id p = e_person_id fe)) as [Hi | Hi].
  - rewrite filter_cons, decide_True by done.
    rewrite !fmap_cons, filter_cons, decide_True by done.
    by rewrite IHl.
  - by rewrite filter_cons, decide_False by done.
  - by rewrite fmap_cons, filter_cons, decide_False by done.
  - done.
Qed.

(** [delete_person] keeps the joined rows of everybody else. *)
Lemma join_rows_delete_person db (name : string) :
  join_rows (delete_person db name).1
  = filter (λ r, p_name r.2 ≠ name) (join_rows db).
Proof.
  unfold join_rows. simpl. rewrite filter_bind.
  induction (face_encodings db) as [| fe fes IH]; [done |].
  rewrite !bind_cons, IH. f_equal.
  rewrite !bind_singleton_fmap. apply join_one_delete.
Qed.

(** X4. Deleting a person and adding the name again gives a new id, one
    above every id handed out so far (AUTOINCREMENT), so the records
    left behind by the deletion are not attached to the new row: the
    name starts with no records, while every other name keeps its own
    and the [face_encodings] table is unchanged. *)
Theorem readded_person_starts_empty db (name now : string) :
  db_wf db →
  let readded := add_person (delete_person db name).1 name now in
  readded.2 = Some (seq_persons db + 1)%Z
  ∧ (∀ p, p ∈ persons db → (p_id p < seq_persons db + 1)%Z)
  ∧ get_person_encodings readded.1 name = []
  ∧ (∀ other, other ≠ name →
       get_person_encodings readded.1 other = get_person_encodings db other)
  ∧ face_encodings readded.1 = face_encodings db.
Proof.
  intros [Hnames Hids Hseq Hrefs] readded. subst readded.
  assert (Hjoin : join_rows (add_person (delete_person db name).1 name now).1
                  = filter (λ r, p_name r.2 ≠ name) (join_rows db)).
  { rewrite (add_person_new _ name now (delete_person_removes_name db name)).
    cbn [fst].
    rewrite (join_rows_fresh_person (delete_person db name).1 name now Hrefs).
    apply join_rows_delete_person. }
  unfold get_person_encodings. rewrite Hjoin.
  rewrite (add_person_new _ name now (delete_person_removes_name db name)).
  simpl. split; [done |]. split.
  { intros p Hp. apply (proj1 (list.Forall_forall _ _) Hseq) in Hp. lia. }
  repeat split.
  - rewrite list_filter_filter, filter_none; [done |]. intros r _ [? ?]. done.
  - intros other Hother. f_equal. rewrite list_filter_filter.
    apply list_filter_iff.
    intros r. split; [by intros [? _] | intros Hr; split; congruence].
Qed.

(** X6. The store invariant (unique names, unique ids, no id above the
    sequence, no record pointing above the sequence) holds for the
    empty tables and is kept by [add_person], by [add_face_encoding]
    with the id [add_person] returned, by [delete_person] and by
    [clear_all_data]. *)
Theorem store_invariant_kept :
  db_wf (create_tables (Blob := Blob))
  ∧ (∀ db name now, db_wf db → db_wf (add_person db name now).1)
  ∧ (∀ db name now pid enc t,
       db_wf db → (add_person db name now).2 = Some pid →
       db_wf (add_face_encoding (add_person db name now).1 pid enc t))
  ∧ (∀ db name, db_wf db → db_wf (delete_person db name).1)
  ∧ (∀ db, db_wf db → db_wf (clear_all_data db)).
Proof.
  repeat apply conj.
  - apply create_tables_wf.
  - intros db name now Hwf. by apply add_person_wf.
  - intros db name now pid enc t Hwf Hpid.
    destruct (add_person_wf db name now Hwf) as [Hwf1 Hle].
    by apply add_face_encoding_wf; [| apply Hle].
  - intros db name Hwf. by apply delete_person_wf.
  - intros db _. split; simpl; constructor.
Qed.

End StoreQueries.

(** ** The embedding engine, continued *)

Lemma fst_zip_take {A B : Type} (l : list A) (k : list B) :
  fst <$> zip l k = take (length (zip l k)) l.
Proof.
  revert k. induction l as [| x l IH]; intros [| y k]; simpl; try done.
  by rewrite IH.
Qed.

(** The row [add_person] reports belongs to the name. *)
Lemma add_person_row {Blob : Type} (db : Database.DatabaseManager Blob)
    (name now : string) (pid : Z) :
  (Database.add_person db name now).2 = Some pid →
  ∃ p, p ∈ Database.persons (Database.add_person db name now).1
       ∧ Database.p_id p = pid ∧ Database.p_name p = name.
Proof.
  unfold Database.add_person.
  destruct (existsb _ _) eqn:Hex; simpl.
  - destruct (find _ _) as [p |] eqn:Hfind; [| done].
    intros [= <-]. apply find_some in Hfind as [Hin Hp].
    exists p. split; [by apply list_elem_of_In |].
    split; [done |]. by apply bool_decide_eq_true in Hp.
  - intros [= <-]. eexists. split; [apply elem_of_app; right; left |]. done.
Qed.

Section EmbeddingMore.
Context {Frame Loc Enc : Type}.
Variable face_locations : Frame → string → list Loc.
Variable face_encodings : Frame → list Loc → list Enc.
Variable dist : Enc → Enc → Q.

Import Embedding.

(** X8. [load_known_faces] of the embedding engine returns the number
    of joined records, leaves store and tolerance alone, and rebuilds
    the two cache lists with that same length; hence on a reloaded
    engine [recognize_faces] never runs into an index error: it returns
    the empty list when the gallery is empty and otherwise one result
    per detected and encoded face. *)
Theorem reload_then_recognize (eng : FaceRecognitionEngine Enc)
    (frame : Frame) (model : string) :
  let reloaded := load_known_faces eng in
  reloaded.2 = length (Database.join_rows (db_manager eng))
  ∧ length (known_encodings reloaded.1) = reloaded.2
  ∧ length (known_names reloaded.1) = reloaded.2
  ∧ db_manager reloaded.1 = db_manager eng
  ∧ tolerance reloaded.1 = tolerance eng
  ∧ ∃ results,
      recognize_faces face_locations face_encodings dist
        reloaded.1 frame model = Some results
      ∧ (reloaded.2 = 0%nat → results = [])
      ∧ (reloaded.2 ≠ 0%nat →
         length results
         = length (zip (detect_faces face_locations frame model)
                       (encode_faces face_encodings frame
                          (detect_faces face_locations frame model)))).
Proof.
  intros reloaded.
  assert (Hlen : length (known_names reloaded.1)
                 = length (known_encodings reloaded.1))
    by (subst reloaded; simpl; by rewrite !length_fmap).
  assert (Hcount : length (known_encodings reloaded.1) = reloaded.2) by done.
  assert (Hjoin : reloaded.2 = length (Database.join_rows (db_manager eng))).
  { subst reloaded. simpl. unfold Database.get_all_encodings.
    by rewrite !length_fmap. }
  split; [done |]. split; [done |]. split; [congruence |].
  split; [done |]. split; [done |].
  destruct (decide (known_encodings reloaded.1 = [])) as [Hnil | Hne].
  - exists []. unfold recognize_faces. rewrite Hnil. split; [done |].
    split; [done |]. intros Hpos. rewrite <- Hcount, Hnil in Hpos. done.
  - rewrite recognize_faces_loop by done.
    assert (Hsome : is_Some (mapM (recognize_one dist reloaded.1)
                      (zip (detect_faces face_locations frame model)
                           (encode_faces face_encodings frame
                              (detect_faces face_locations frame model))))).
    { apply mapM_is_Some, list.Forall_forall. intros [loc enc] _.
      destruct (recognize_one_spec dist reloaded.1 loc enc Hne Hlen)
        as (? & ? & _ & _ & _ & Hone).
      unfold compose. by rewrite Hone. }
    destruct Hsome as [results Hres]. exists results. split; [done |].
    apply mapM_Some, Forall2_length in Hres. split; [| done].
    intros Hzero. rewrite <- Hcount in Hzero.
    by apply length_zero_iff_nil in Hzero.
Qed.

(** X9. Whatever [recognize_faces] of the embedding engine returns, the
    locations of the results are the detected locations, in detection
    order, cut to the number of results; there are never more results
    than detected faces or than encodings. *)
Theorem recognized_locations (eng : FaceRecognitionEngine Enc)
    (frame : Frame) (model : string) (results : list (Loc * string * Q)) :
  recognize_faces face_locations face_encodings dist eng frame model
  = Some results →
  (λ r, r.1.1) <$> results
  = take (length results) (detect_faces face_locations frame model)
  ∧ (length results
     ≤ length (detect_faces face_locations frame model))%nat
  ∧ (length results
     ≤ length (encode_faces face_encodings frame
                 (detect_faces face_locations frame model)))%nat.
Proof.
  intros Hres.
  destruct (decide (known_encodings eng = [])) as [Hnil | Hne].
  { unfold recognize_faces in Hres. rewrite Hnil in Hres.
    injection Hres as <-. simpl. split; [done |]. split; lia. }
  rewrite recognize_faces_loop in Hres by done.
  apply mapM_Some in Hres.
  pose proof Hres as Hlen. apply Forall2_length in Hlen.
  rewrite <- Hlen.
  split; [| rewrite length_zip; split; lia].
  rewrite <- fst_zip_take. clear Hlen.
  induction Hres as [| face r faces results Hone _ IH]; [done |].
  rewrite !fmap_cons, IH. f_equal.
  destruct r as [[loc name] conf].
  by apply recognize_one_inv in Hone as [-> _].
Qed.

(** One detected face and an encoding for it: the registration goes
    through. *)
Lemma register_face_encoded_face (eng : FaceRecognitionEngine Enc)
    (frame : Frame) (name now : string) :
  length (detect_faces face_locations frame "hog") = 1%nat →
  encode_faces face_encodings frame
    (detect_faces face_locations frame "hog") ≠ [] →
  (register_face face_locations face_encodings eng frame name now).2
  = (true, "Face registered successfully").
Proof.
  intros Hone Henc. unfold register_face.
  rewrite bool_decide_eq_false_2 by lia.
  rewrite bool_decide_eq_false_2 by lia.
  destruct (encode_faces _ _ _) as [| enc encs]; [done |].
  destruct (add_person_is_Some (db_manager eng) name now) as [pid Hpid].
  destruct (Database.add_person _ _ _) as [db1 person_id].
  simpl in Hpid. by subst person_id.
Qed.

(** X10. [register_face] of the embedding engine succeeds exactly when
    one face is detected and the encoder returns an encoding for it; a
    success carries the message "Face registered successfully"; and the
    message "Failed to add person to database" is never returned: for a
    string name [add_person] always yields an id. *)
Theorem embedding_register_succeeds_iff (eng : FaceRecognitionEngine Enc)
    (frame : Frame) (name now : string) :
  let registered :=
    register_face face_locations face_encodings eng frame name now in
  (registered.2.1 = true ↔
   length (detect_faces face_locations frame "hog") = 1%nat
   ∧ encode_faces face_encodings frame
       (detect_faces face_locations frame "hog") ≠ [])
  ∧ (registered.2.1 = true →
     registered.2.2 = "Face registered successfully")
  ∧ registered.2.2 ≠ "Failed to add person to database".
Proof.
  intros registered. subst registered. unfold register_face.
  case_bool_decide as H0; [simpl; split; [split |]; [done | lia | done] |].
  case_bool_decide as H1; [simpl; split; [split |]; [done | lia | done] |].
  destruct (encode_faces _ _ _) as [| enc encs];
    [simpl; split; [split |]; [done | by intros [_ ?] | done] |].
  destruct (add_person_is_Some (db_manager eng) name now) as [pid Hpid].
  destruct (Database.add_person _ _ _) as [db1 person_id].
  simpl in Hpid. subst person_id. simpl.
  split; [split; [intros _; split; [lia | done] | done] | done].
Qed.

(** After a registration that succeeds, the name and the first encoding
    of the frame sit side by side in the reloaded cache. *)
Lemma registered_pair_cached (eng : FaceRecognitionEngine Enc)
    (frame : Frame) (name now : string) (enc : Enc) (encs : list Enc) :
  let registered :=
    register_face face_locations face_encodings eng frame name now in
  registered.2.1 = true →
  encode_faces face_encodings frame
    (detect_faces face_locations frame "hog") = enc :: encs →
  length (known_names registered.1) = length (known_encodings registered.1)
  ∧ ∃ i, known_names registered.1 !! i = Some name
         ∧ known_encodings registered.1 !! i = Some enc.
Proof.
  intros registered. subst registered. unfold register_face.
  repeat case_bool_decide; [done | done |].
  intros Hok Henc. rewrite Henc in Hok |- *.
  destruct (Database.add_person (db_manager eng) name now)
    as [db1 [pid |]] eqn:Hadd; [| done].
  simpl. rewrite !length_fmap. split; [done |].
  destruct (add_person_row (db_manager eng) name now pid) as (p & Hp & Hid & Hn).
  { by rewrite Hadd. }
  rewrite Hadd in Hp. simpl in Hp.
  assert (Hin : (name, enc) ∈ Database.get_all_encodings
                  (Database.add_face_encoding db1 pid enc now)).
  { unfold Database.get_all_encodings.
    rewrite join_rows_add_face_encoding, fmap_app.
    apply elem_of_app. right.
    apply list_elem_of_fmap.
    exists (Database.EncodingRow (Database.seq_face_encodings db1 + 1)
              pid enc now, p).
    split; [simpl; by rewrite Hn |].
    apply list_elem_of_fmap_2. by apply list_elem_of_filter. }
  apply list_elem_of_lookup in Hin as [i Hi]. exists i.
  by rewrite !list_lookup_fmap, Hi.
Qed.

Lemma register_face_tolerance (eng : FaceRecognitionEngine Enc)
    (frame : Frame) (name now : string) :
  tolerance (register_face face_locations face_encodings
               eng frame name now).1 = tolerance eng.
Proof.
  unfold register_face.
  case_bool_decide; [done |]. case_bool_decide; [done |].
  destruct (encode_faces _ _ _); [done |].
  by destruct (Database.add_person _ _ _) as [? [? |]].
Qed.

(** X11. Register, then recognise the same frame. With a distance that
    is never negative and is zero between equal encodings, and a
    tolerance that is not negative: registering a frame with one face
    succeeds, and recognising that frame on the resulting engine returns
    one accepted result with confidence 100, whose identity is a gallery
    entry at distance zero from the face (the new entry, or an earlier
    one with an equal encoding). *)
Theorem registered_face_is_recognized (eng : FaceRecognitionEngine Enc)
    (frame : Frame) (name now : string) (loc : Loc) (enc : Enc) :
  (∀ a b, 0 <= dist a b) →
  (∀ a, dist a a == 0) →
  0 <= tolerance eng →
  detect_faces face_locations frame "hog" = [loc] →
  encode_faces face_encodings frame [loc] = [enc] →
  let registered :=
    register_face face_locations face_encodings eng frame name now in
  registered.2.1 = true
  ∧ ∃ who conf i known,
      recognize_faces face_locations face_encodings dist
        registered.1 frame "hog" = Some [(loc, who, conf)]
      ∧ conf == 100
      ∧ known_names registered.1 !! i = Some who
      ∧ known_encodings registered.1 !! i = Some known
      ∧ dist enc known == 0.
Proof.
  intros Hnonneg Hzero Htol Hloc Henc registered.
  assert (Hok : registered.2.1 = true).
  { subst registered. rewrite register_face_encoded_face; [done | |];
      rewrite Hloc; [done | by rewrite Henc]. }
  split; [done |].
  destruct (registered_pair_cached eng frame name now enc [])
    as (Hlen & i0 & Hname0 & Henc0); [done | by rewrite Hloc |].
  fold registered in Hlen, Hname0, Henc0.
  assert (Hne : known_encodings registered.1 ≠ []).
  { intros Hnil. by rewrite Hnil in Henc0. }
  rewrite recognize_faces_loop by done. rewrite Hloc, Henc.
  destruct (recognize_one_spec dist registered.1 loc enc Hne Hlen)
    as (dmin & best_name & Hbest & Hbname & Hmin & Hone).
  set (f := recognize_one dist registered.1) in *.
  cbn [zip_with mapM]. rewrite Hone. cbn [mbind option_bind mret option_ret].
  assert (Hle : dmin <= 0).
  { rewrite <- (Hzero enc). apply (Hmin i0).
    unfold face_distance. by rewrite list_lookup_fmap, Henc0. }
  set (best := argmin (face_distance dist (known_encodings registered.1) enc))
    in *.
  unfold face_distance in Hbest. rewrite list_lookup_fmap in Hbest.
  destruct (known_encodings registered.1 !! best) as [known |] eqn:Hknown;
    [| done].
  simpl in Hbest. injection Hbest as Hd.
  assert (Hd0 : dmin == 0).
  { pose proof (Hnonneg enc known) as Hge. rewrite Hd in Hge. lra. }
  assert (Hacc : Qle_bool dmin (tolerance eng) = true).
  { apply Qle_bool_iff. lra. }
  assert (Htoleq : tolerance registered.1 = tolerance eng)
    by apply register_face_tolerance.
  rewrite Htoleq, Hacc.
  eexists best_name, _, _, known. split; [done |].
  split; [| split; [exact Hbname | split; [exact Hknown |]]].
  - unfold confidence_of_distance. rewrite pymax0_pos by lra. lra.
  - by rewrite Hd.
Qed.

End EmbeddingMore.

(** ** The OpenCV engine, continued *)

Section ClassifierMore.
Context {Frame GrayImg Patch : Type}.
Variable cvtColor : Frame → GrayImg.
Variable detectMultiScale : GrayImg → list (Z * Z * Z * Z).
Variable crop_resize : GrayImg → Z * Z * Z * Z → Patch.
Variable predict : list Patch → list Z → Patch → Z * Q.

Import LBPH.

(** X17. [detect_faces] of the OpenCV engine returns one region per
    cascade box, in order; the box is recovered from the region as
    (left, top, right - left, bottom - top); regions of boxes with
    non-negative width and height have top <= bottom and left <= right;
    and the [model] argument has no influence. *)
Theorem detected_regions (frame : Frame) (model : string) :
  let boxes := detectMultiScale (cvtColor frame) in
  let regions := detect_faces cvtColor detectMultiScale frame model in
  length regions = length boxes
  ∧ (λ '(t, r, b, l), (l, t, r - l, b - t)%Z) <$> regions = boxes
  ∧ (Forall (λ '(x, y, w, h), (0 ≤ w ∧ 0 ≤ h)%Z) boxes →
     Forall (λ '(t, r, b, l), (t ≤ b ∧ l ≤ r)%Z) regions)
  ∧ regions = detect_faces cvtColor detectMultiScale frame "hog".
Proof.
  intros boxes regions. subst regions. unfold detect_faces. fold boxes.
  split; [by rewrite length_fmap |]. split; [| split; [| done]].
  - rewrite <- list_fmap_compose.
    induction boxes as [| [[[x y] w] h] l IH]; [done |].
    rewrite fmap_cons, IH. simpl. do 3 f_equal; lia.
  - intros Hpos. apply Forall_fmap.
    eapply list.Forall_impl; [exact Hpos |].
    intros [[[x y] w] h]. simpl. lia.
Qed.

(** The loop of [load_known_faces], row by row. *)
Lemma collect_spec (db : Database.DatabaseManager Patch)
    (rows : list (string * nat * string)) (acc : training) :
  (∀ k, is_Some (t_label_to_name acc !! k) → (k < t_label_id acc)%Z) →
  (∀ name k, t_name_to_label acc !! name = Some k →
             t_label_to_name acc !! k = Some name) →
  length (t_labels acc) = length (t_faces acc) →
  let acc' := foldl (collect db) acc rows in
  (∀ k, t_label_to_name acc' !! k
        = if decide (t_label_id acc ≤ k
                     < t_label_id acc + Z.of_nat (length rows))%Z
          then (λ row, row.1.1) <$> rows !! Z.to_nat (k - t_label_id acc)
          else t_label_to_name acc !! k)
  ∧ (∀ name k, t_name_to_label acc' !! name = Some k →
               t_label_to_name acc' !! k = Some name)
  ∧ length (t_labels acc') = length (t_faces acc')
  ∧ t_faces acc'
    = t_faces acc
      ++ mjoin ((λ row, Database.get_person_encodings db row.1.1) <$> rows).
Proof.
  revert acc. induction rows as [| row rows IH]; intros acc Hlt Hinv Hlen.
  - simpl. repeat split; try done; [| by rewrite app_nil_r].
    intros k. case_decide; [lia | done].
  - simpl.
    destruct (IH (collect db acc row)) as (Hmap & Hinv' & Hlen' & Hf).
    { intros k. unfold collect. simpl.
      rewrite lookup_insert. case_decide; [lia |].
      intros Hk. apply Hlt in Hk. lia. }
    { intros name k. unfold collect. simpl.
      rewrite lookup_insert. case_decide as Hn.
      - intros [= <-]. rewrite lookup_insert_eq. congruence.
      - intros Hk. pose proof (Hinv _ _ Hk) as Hl.
        assert (k < t_label_id acc)%Z by (apply Hlt; by eexists).
        rewrite lookup_insert_ne by lia. done. }
    { unfold collect. simpl.
      rewrite !length_app, length_replicate. lia. }
    split; [| split; [done | split; [done |]]].
    + intros k. rewrite Hmap. unfold collect at 1 2 3. simpl.
      destruct (decide (k = t_label_id acc)) as [-> | Hk].
      * rewrite decide_False by lia. rewrite decide_True by lia.
        rewrite lookup_insert_eq, Z.sub_diag. done.
      * rewrite lookup_insert_ne by done.
        repeat case_decide; try lia; try done.
        replace (Z.to_nat (k - t_label_id acc))
          with (S (Z.to_nat (k - (t_label_id acc + 1)))) by lia.
        done.
    + rewrite Hf. unfold collect. simpl. by rewrite <- app_assoc.
Qed.

(** After a reload over a non-empty [persons] table. *)
Lemma load_known_faces_rows (eng : FaceRecognitionEngine Patch) :
  let rows := Database.get_all_persons (db_manager eng) in
  let reloaded := load_known_faces eng in
  rows ≠ [] →
  (∀ k, label_to_name reloaded.1 !! k
        = if decide (0 ≤ k < Z.of_nat (length rows))%Z
          then (λ row, row.1.1) <$> rows !! Z.to_nat k
          else None)
  ∧ (∀ name k, name_to_label reloaded.1 !! name = Some k →
               label_to_name reloaded.1 !! k = Some name)
  ∧ reloaded.2
    = length (mjoin ((λ row, Database.get_person_encodings
                               (db_manager eng) row.1.1) <$> rows))
  ∧ trained reloaded.1 = bool_decide (0 < reloaded.2)%nat
  ∧ (trained reloaded.1 = true →
     length (recognizer reloaded.1).1 = reloaded.2
     ∧ length (recognizer reloaded.1).2 = reloaded.2).
Proof.
  intros rows reloaded.
  subst reloaded. unfold load_known_faces. fold rows.
  destruct rows as [| row rows'] eqn:Hrows; [done |]. intros _.
  destruct (collect_spec (db_manager eng) (row :: rows')
              {| t_label_to_name := ∅; t_name_to_label := ∅;
                 t_faces := []; t_labels := []; t_label_id := 0 |})
    as (Hmap & Hinv & Hlen & Hfaces).
  { intros k. simpl. rewrite lookup_empty. by intros [? ?]. }
  { intros name k. simpl. by rewrite lookup_empty. }
  { done. }
  set (acc := foldl _ _ _) in *. simpl in Hfaces.
  assert (Hmap' : ∀ k, t_label_to_name acc !! k
                       = if decide (0 ≤ k < Z.of_nat (length (row :: rows')))%Z
                         then (λ r, r.1.1) <$> (row :: rows') !! Z.to_nat k
                         else None).
  { intros k. rewrite Hmap. simpl t_label_id. rewrite Z.sub_0_r, Z.add_0_l.
    case_decide; [done | apply lookup_empty]. }
  case_bool_decide as Hpos; simpl.
  - repeat split; try done; try (by rewrite Hfaces);
      try (symmetry; by apply bool_decide_eq_true); lia.
  - repeat split; try done; try (rewrite <- Hfaces; lia);
      symmetry; apply bool_decide_eq_false; lia.
Qed.

(** X18. [load_known_faces] of the OpenCV engine leaves store and
    tolerance alone. With no person in the store it only clears
    [trained]: both dictionaries and the recognizer keep their previous
    content. Otherwise the labels are 0, 1, ... in the order of
    [get_all_persons]: [label_to_name] maps label [i] to the name of
    row [i] and has no other entry, every entry of [name_to_label]
    points back to its name, [trained] tells whether any record was
    loaded, and a trained recognizer holds as many faces as labels, the
    number returned. *)
Theorem load_known_faces_training_set (eng : FaceRecognitionEngine Patch) :
  let rows := Database.get_all_persons (db_manager eng) in
  let reloaded := load_known_faces eng in
  db_manager reloaded.1 = db_manager eng
  ∧ tolerance reloaded.1 = tolerance eng
  ∧ (rows = [] →
     reloaded.2 = 0%nat
     ∧ trained reloaded.1 = false
     ∧ label_to_name reloaded.1 = label_to_name eng
     ∧ name_to_label reloaded.1 = name_to_label eng
     ∧ recognizer reloaded.1 = recognizer eng)
  ∧ (rows ≠ [] →
     (∀ i row, rows !! i = Some row →
               label_to_name reloaded.1 !! Z.of_nat i = Some row.1.1)
     ∧ (∀ k name, label_to_name reloaded.1 !! k = Some name →
                  ∃ row, rows !! Z.to_nat k = Some row ∧ row.1.1 = name
                         ∧ (0 ≤ k)%Z)
     ∧ (∀ name k, name_to_label reloaded.1 !! name = Some k →
                  label_to_name reloaded.1 !! k = Some name)
     ∧ trained reloaded.1 = bool_decide (0 < reloaded.2)%nat
     ∧ (trained reloaded.1 = true →
        length (recognizer reloaded.1).1 = reloaded.2
        ∧ length (recognizer reloaded.1).2 = reloaded.2)).
Proof.
  intros rows reloaded.
  split; [apply load_known_faces_db |].
  split; [apply load_known_faces_tolerance |].
  split.
  - intros Hnil. subst reloaded. unfold load_known_faces.
    fold rows. by rewrite Hnil.
  - intros Hne.
    destruct (load_known_faces_rows eng Hne)
      as (Hmap & Hinv & _ & Htrained & Hlen).
    fold reloaded in Hmap, Hinv, Htrained, Hlen. fold rows in Hmap.
    split; [| split; [| done]].
    + intros i row Hi. rewrite Hmap.
      pose proof (lookup_lt_Some _ _ _ Hi).
      rewrite decide_True by lia. by rewrite Nat2Z.id, Hi.
    + intros k name Hk. rewrite Hmap in Hk. case_decide; [| done].
      destruct (rows !! Z.to_nat k) as [row |]; [| done].
      simpl in Hk. injection Hk as <-. exists row. repeat split; lia.
Qed.

Lemma with_db_db (eng : FaceRecognitionEngine Patch)
    (db : Database.DatabaseManager Patch) :
  db_manager (with_db eng db) = db.
Proof. done. Qed.

(** A name with a person row and a joined record gets a label, and the
    engine is trained. *)
Lemma reload_labels_name (eng : FaceRecognitionEngine Patch) (name : string) :
  name ∈ Database.p_name <$> Database.persons (db_manager eng) →
  Database.get_person_encodings (db_manager eng) name ≠ [] →
  trained (load_known_faces eng).1 = true
  ∧ ∃ label, label_to_name (load_known_faces eng).1 !! label = Some name.
Proof.
  intros Hin Henc.
  apply get_all_persons_names in Hin as (row & Hrow & Hname).
  destruct (load_known_faces_rows eng)
    as (Hmap & _ & Hcount & Htrained & _).
  { intros Hnil. rewrite Hnil in Hrow. by apply elem_of_nil in Hrow. }
  apply list_elem_of_lookup in Hrow as [i Hi].
  split.
  - rewrite Htrained. apply bool_decide_eq_true. rewrite Hcount.
    destruct (mjoin _) as [| x l] eqn:Hjoin; [| simpl; lia].
    destruct Henc.
    assert (Hsub : Database.get_person_encodings (db_manager eng) name
                   ∈ (λ row, Database.get_person_encodings (db_manager eng)
                               row.1.1)
                       <$> Database.get_all_persons (db_manager eng)).
    { apply list_elem_of_fmap. exists row.
      split; [by rewrite Hname | apply list_elem_of_lookup; eauto]. }
    destruct (Database.get_person_encodings (db_manager eng) name)
      as [| e es]; [done |].
    assert (He : e ∈ mjoin ((λ row, Database.get_person_encodings
                                      (db_manager eng) row.1.1)
                              <$> Database.get_all_persons (db_manager eng))).
    { apply list_elem_of_join. eexists. split; [| exact Hsub]. left. }
    rewrite Hjoin in He. by apply elem_of_nil in He.
  - exists (Z.of_nat i). rewrite Hmap.
    pose proof (lookup_lt_Some _ _ _ Hi).
    rewrite decide_True by lia. rewrite Nat2Z.id, Hi. simpl. by rewrite Hname.
Qed.

(** The record a registration writes is joined to the name. *)
Lemma registration_joined (db : Database.DatabaseManager Patch)
    (name now t : string) (pid : Z) (patch : Patch) :
  (Database.add_person db name now).2 = Some pid →
  let db2 := Database.add_face_encoding
               (Database.add_person db name now).1 pid patch t in
  name ∈ Database.p_name <$> Database.persons db2
  ∧ patch ∈ Database.get_person_encodings db2 name.
Proof.
  intros Hpid db2.
  destruct (add_person_row db name now pid Hpid) as (p & Hp & Hid & Hn).
  split.
  - subst db2. unfold Database.add_face_encoding. cbn [Database.persons].
    apply list_elem_of_fmap. by exists p.
  - subst db2. unfold Database.get_person_encodings.
    rewrite join_rows_add_face_encoding, list.filter_app, fmap_app.
    apply elem_of_app. right. apply list_elem_of_fmap.
    eexists (Database.EncodingRow _ pid patch t, p). split; [reflexivity |].
    apply list_elem_of_filter. split; [done |].
    apply list_elem_of_fmap_2. by apply list_elem_of_filter.
Qed.

(** X19. [register_face] of the OpenCV engine succeeds exactly when one
    face is detected, and never returns "Failed to add person to
    database". After a success the engine is trained, the name has a
    label and a person row, and the resized patch of the detected
    region is among the records stored under the name. *)
Theorem classifier_register_trains (eng : FaceRecognitionEngine Patch)
    (frame : Frame) (name now : string) :
  let registered :=
    register_face cvtColor detectMultiScale crop_resize eng frame name now in
  (registered.2.1 = true ↔
   length (detect_faces cvtColor detectMultiScale frame "hog") = 1%nat)
  ∧ registered.2.2 ≠ "Failed to add person to database"
  ∧ (registered.2.1 = true →
     trained registered.1 = true
     ∧ (∃ label, label_to_name registered.1 !! label = Some name)
     ∧ name ∈ Database.p_name
               <$> Database.persons (db_manager registered.1)
     ∧ ∃ loc, detect_faces cvtColor detectMultiScale frame "hog" = [loc]
              ∧ crop_resize (cvtColor frame) loc
                ∈ Database.get_person_encodings
                    (db_manager registered.1) name).
Proof.
  intros registered. subst registered. unfold register_face.
  destruct (detect_faces _ _ _ _) as [| loc [| l1 locs]];
    [by repeat split | | by repeat split].
  pose proof (registration_joined (db_manager eng) name now now) as Hjoined.
  destruct (add_person_is_Some (db_manager eng) name now) as [pid Hpid].
  destruct (Database.add_person _ _ _) as [db1 person_id].
  simpl in Hpid. subst person_id.
  specialize (Hjoined pid (crop_resize (cvtColor frame) loc) eq_refl).
  simpl in Hjoined. destruct Hjoined as [Hin Hpatch].
  simpl. split; [done |]. split; [done |]. intros _.
  set (db2 := Database.add_face_encoding db1 pid _ now) in *.
  destruct (reload_labels_name (with_db eng db2) name) as [Htr Hlab].
  { done. }
  { intros Hnil. simpl in Hnil. rewrite Hnil in Hpatch.
    by apply elem_of_nil in Hpatch. }
  rewrite load_known_faces_db. simpl.
  split; [done |]. split; [done |]. split; [done |].
  exists loc. done.
Qed.

(** X13. After [delete_person] of the OpenCV engine has reported a
    removal, no recognition on the resulting engine returns the deleted
    name (a person named like the sentinel apart). *)
Theorem classifier_deleted_never_recognized
    (eng : FaceRecognitionEngine Patch) (name : string) (frame : Frame)
    (model : string) (loc : Z * Z * Z * Z) (conf : Q) :
  (delete_person eng name).2 = true →
  name ≠ Unknown →
  (loc, name, conf)
    ∉ recognize_faces cvtColor detectMultiScale crop_resize predict
        (delete_person eng name).1 frame model.
Proof.
  unfold delete_person.
  destruct (Database.delete_person (db_manager eng) name) as [db1 success]
    eqn:Hdel.
  destruct success; [intros _ Hname Hin | done]. simpl in Hin.
  apply recognize_faces_elem in Hin as (Htrained & l & _ & Hone).
  pose proof (delete_person_removes_name (db_manager eng) name) as Hgone.
  rewrite Hdel in Hgone. simpl in Hgone.
  destruct (decide (Database.get_all_persons (db_manager (with_db eng db1))
                    = [])) as [Hnil | Hne].
  { unfold load_known_faces in Htrained. by rewrite Hnil in Htrained. }
  destruct (load_known_faces_rows (with_db eng db1) Hne) as (Hmap & _).
  unfold recognize_one in Hone.
  destruct (prediction _ _ _ _ _) as [label score].
  destruct (Qlt_le_dec score _);
    [destruct (label_to_name _ !! label) as [n |] eqn:Hl |];
    injection Hone as _ Hn _; try done.
  subst n. rewrite Hmap in Hl. case_decide; [| done].
  destruct (Database.get_all_persons _ !! Z.to_nat label) as [row |] eqn:Hrow;
    [| done].
  simpl in Hl. injection Hl as Hl.
  apply Hgone. apply (get_all_persons_names db1 name).
  exists row. split; [| done]. apply list_elem_of_lookup. eauto.
Qed.

End ClassifierMore.

(** ** Clearing and deleting in both engines *)

Section BothEngines.
Context {Frame Loc Enc : Type}.
Variable face_locations : Frame → string → list Loc.
Variable face_encodings : Frame → list Loc → list Enc.
Variable dist : Enc → Enc → Q.
Context {Scene GrayImg Patch : Type}.
Variable cvtColor : Scene → GrayImg.
Variable detectMultiScale : GrayImg → list (Z * Z * Z * Z).
Variable crop_resize : GrayImg → Z * Z * Z * Z → Patch.
Variable predict : list Patch → list Z → Patch → Z * Q.

(** X20. [clear_all_faces]. Both engines end with empty tables and
    recognise nothing afterwards. The embedding engine then reports 0
    persons and 0 encodings. The OpenCV engine reports 0 persons and is
    untrained, but its [label_to_name] is not cleared, so its
    [total_encodings] is what it was before the clearing. *)
Theorem clear_all_faces_statistics :
  (∀ (eng : Embedding.FaceRecognitionEngine Enc) frame model,
     let cleared := Embedding.clear_all_faces eng in
     Embedding.get_statistics cleared
     = Embedding.Stats 0 0 (Embedding.tolerance eng)
     ∧ Embedding.recognize_faces face_locations face_encodings dist
         cleared frame model = Some []
     ∧ Database.persons (Embedding.db_manager cleared) = []
     ∧ Database.face_encodings (Embedding.db_manager cleared) = []
     ∧ Database.seq_persons (Embedding.db_manager cleared)
       = Database.seq_persons (Embedding.db_manager eng))
  ∧ (∀ (eng : LBPH.FaceRecognitionEngine Patch) frame model,
       let cleared := LBPH.clear_all_faces eng in
       LBPH.get_statistics cleared
       = LBPH.Stats 0 (size (LBPH.label_to_name eng)) (LBPH.tolerance eng)
       ∧ LBPH.trained cleared = false
       ∧ LBPH.recognize_faces cvtColor detectMultiScale crop_resize predict
           cleared frame model = []
       ∧ LBPH.label_to_name cleared = LBPH.label_to_name eng
       ∧ Database.persons (LBPH.db_manager cleared) = []
       ∧ Database.face_encodings (LBPH.db_manager cleared) = []).
Proof.
  split.
  - intros eng frame model cleared. by repeat split.
  - intros eng frame model cleared. by repeat split.
Qed.

(** X3. Deleting a name nobody bears: the store's [delete_person]
    returns [False] and the store is unchanged, and [delete_person] of
    either engine returns [False] and leaves the engine, cache
    included, as it was (no reload). *)
Theorem delete_absent_person :
  (∀ (db : Database.DatabaseManager Enc) name,
     name ∉ Database.p_name <$> Database.persons db →
     Database.delete_person db name = (db, false))
  ∧ (∀ (eng : Embedding.FaceRecognitionEngine Enc) name,
       name ∉ Database.p_name
                <$> Database.persons (Embedding.db_manager eng) →
       Embedding.delete_person eng name = (eng, false))
  ∧ (∀ (eng : LBPH.FaceRecognitionEngine Patch) name,
       name ∉ Database.p_name <$> Database.persons (LBPH.db_manager eng) →
       LBPH.delete_person eng name = (eng, false)).
Proof.
  split; [| split].
  - intros db name Habs. by apply delete_person_absent.
  - intros eng name Habs. unfold Embedding.delete_person.
    rewrite (delete_person_absent _ _ Habs). by destruct eng.
  - intros eng name Habs. unfold LBPH.delete_person.
    rewrite (delete_person_absent _ _ Habs). by destruct eng.
Qed.

End BothEngines.

(** ** Enrollment over several frames *)

Section EnrollmentRun.
Context {Frame GrayImg Patch : Type}.
Variable cvtColor : Frame → GrayImg.
Variable detectMultiScale : GrayImg → list (Z * Z * Z * Z).
Variable crop_resize : GrayImg → Z * Z * Z * Z → Patch.
Variable predict : list Patch → list Z → Patch → Z * Q.

Import App.

(** A registration that succeeds appends one record; any other leaves
    the table as it was. *)
Lemma register_face_records (eng : LBPH.FaceRecognitionEngine Patch)
    (frame : Frame) (name now : string) :
  let registered :=
    LBPH.register_face cvtColor detectMultiScale crop_resize
      eng frame name now in
  length (Database.face_encodings (LBPH.db_manager registered.1))
  = (length (Database.face_encodings (LBPH.db_manager eng))
     + if registered.2.1 then 1 else 0)%nat.
Proof.
  intros registered. subst registered. unfold LBPH.register_face.
  destruct (LBPH.detect_faces _ _ _ _) as [| loc [| l1 locs]];
    [simpl; lia | | simpl; lia].
  destruct (Database.add_person _ _ _) as [db1 [pid |]] eqn:Hadd.
  - cbn [fst snd]. rewrite load_known_faces_db. simpl.
    rewrite length_app. simpl.
    assert (Database.face_encodings db1
            = Database.face_encodings (LBPH.db_manager eng)) as ->; [| done].
    unfold Database.add_person in Hadd.
    destruct (existsb _ _); by injection Hadd as <- _.
  - apply add_person_failure_keeps_store in Hadd as ->. simpl. lia.
Qed.

(** The pass that captures: one face, debounce elapsed, samples missing. *)
Lemma capture_step (a : FacialRecognitionApp Patch) (frame : Frame)
    (current_time : Q) (now : string) :
  registration_mode a = true →
  length (LBPH.detect_faces cvtColor detectMultiScale frame "hog") = 1%nat →
  capture_delay a <= current_time - last_capture_time a →
  (registration_count a < target_samples a)%Z →
  let a' := (camera_loop_body cvtColor detectMultiScale crop_resize predict
               a frame current_time now).1 in
  registration_count a' = (registration_count a + 1)%Z
  ∧ last_capture_time a' = current_time
  ∧ target_samples a' = target_samples a
  ∧ capture_delay a' = capture_delay a
  ∧ registration_name a' = registration_name a
  ∧ registration_mode a'
    = negb (target_samples a <=? registration_count a + 1)%Z
  ∧ face_engine a'
    = (LBPH.register_face cvtColor detectMultiScale crop_resize
         (face_engine a) frame (registration_name a) now).1.
Proof.
  intros Hmode Hone Hdelay Hcount a'. subst a'.
  unfold camera_loop_body. rewrite Hmode.
  unfold process_registration_frame.
  rewrite bool_decide_eq_false_2 by (intros H; done).
  apply Qle_bool_iff in Hdelay. rewrite Hdelay.
  apply Z.ltb_lt in Hcount. rewrite Hcount.
  pose proof (register_face_one_face cvtColor detectMultiScale crop_resize
                (face_engine a) frame (registration_name a) now Hone) as Hreg.
  destruct (LBPH.register_face _ _ _ _ _ _ _) as [eng [success msg]].
  injection Hreg as -> ->. simpl.
  destruct (target_samples a <=? registration_count a + 1)%Z; by simpl.
Qed.

(** X21. Debounce: in registration mode a frame that arrives less than
    [capture_delay] after the last capture is dropped, whatever it
    shows: no registration is attempted and the state is unchanged. *)
Theorem debounce_holds_back (a : FacialRecognitionApp Patch) (frame : Frame)
    (current_time : Q) (now : string) :
  registration_mode a = true →
  current_time - last_capture_time a < capture_delay a →
  camera_loop_body cvtColor detectMultiScale crop_resize predict
    a frame current_time now = (a, Registration None).
Proof.
  intros Hmode Hearly. unfold camera_loop_body. rewrite Hmode.
  unfold process_registration_frame.
  case_bool_decide; [done |].
  destruct (Qle_bool _ _) eqn:Hle; [| done].
  apply Qle_bool_iff in Hle. lra.
Qed.

(** X22. One pass of the camera loop never takes the sample count
    above the target: the count stays or grows by one, the target and
    the name are unchanged, the [face_encodings] table grows by exactly
    the growth of the count, and outside registration mode the pass
    leaves the application state as it was. *)
Theorem registration_count_bounded (a : FacialRecognitionApp Patch)
    (frame : Frame) (current_time : Q) (now : string) :
  (registration_count a ≤ target_samples a)%Z →
  let a' := (camera_loop_body cvtColor detectMultiScale crop_resize predict
               a frame current_time now).1 in
  (registration_count a ≤ registration_count a' ≤ registration_count a + 1)%Z
  ∧ (registration_count a' ≤ target_samples a')%Z
  ∧ target_samples a' = target_samples a
  ∧ registration_name a' = registration_name a
  ∧ Z.of_nat (length (Database.face_encodings (LBPH.db_manager (face_engine a'))))
    = (Z.of_nat (length (Database.face_encodings (LBPH.db_manager (face_engine a))))
       + (registration_count a' - registration_count a))%Z
  ∧ (registration_mode a = false → a' = a).
Proof.
  intros Hbound a'. subst a'. unfold camera_loop_body.
  destruct (registration_mode a) eqn:Hmode; [| simpl; repeat split; lia].
  unfold process_registration_frame.
  case_bool_decide; [simpl; repeat split; (lia || done) |].
  destruct (Qle_bool _ _); [| simpl; repeat split; (lia || done)].
  destruct (registration_count a <? target_samples a)%Z eqn:Hlt;
    [| simpl; repeat split; (lia || done)].
  apply Z.ltb_lt in Hlt.
  pose proof (register_face_records (face_engine a) frame
                (registration_name a) now) as Hrec.
  destruct (LBPH.register_face _ _ _ _ _ _ _) as [eng [success msg]].
  simpl in Hrec. destruct success.
  - simpl. destruct (_ <=? _)%Z; simpl; repeat split; (lia || done).
  - simpl. repeat split; (lia || done).
Qed.

(** X23. An enrollment that runs to its end. Starting in registration
    mode below the target, frames that each show one face and arrive at
    least [capture_delay] apart, no more of them than samples are
    missing, are all captured: the count and the [face_encodings] table
    grow by the number of frames, and the mode is Idle at the end
    exactly when the target was reached. *)
Theorem enrollment_completes (events : list (Frame * Q * string))
    (a : FacialRecognitionApp Patch) :
  registration_mode a = true →
  (registration_count a < target_samples a)%Z →
  (registration_count a + Z.of_nat (length events) ≤ target_samples a)%Z →
  Main.spaced cvtColor detectMultiScale
    (capture_delay a) (last_capture_time a) events →
  let a' := Main.process_frames cvtColor detectMultiScale crop_resize predict
              a events in
  registration_count a'
  = (registration_count a + Z.of_nat (length events))%Z
  ∧ (registration_mode a' = false ↔
     (registration_count a + Z.of_nat (length events))%Z = target_samples a)
  ∧ length (Database.face_encodings (LBPH.db_manager (face_engine a')))
    = (length (Database.face_encodings (LBPH.db_manager (face_engine a))) + length events)%nat
  ∧ registration_name a' = registration_name a.
Proof.
  unfold Main.process_frames.
  revert a. induction events as [| event events IH];
    intros a Hmode Hlt Hle Hspaced.
  - simpl. rewrite Hmode. repeat split; try lia; try done.
  - destruct Hspaced as (Hone & Hdelay & Hspaced).
    destruct (capture_step a event.1.1 event.1.2 event.2
                Hmode Hone Hdelay Hlt)
      as (Hcount & Hlast & Htarget & Hdel & Hname & Hmode' & Heng).
    pose proof (register_face_records (face_engine a) event.1.1
                  (registration_name a) event.2) as Hrec.
    pose proof (register_face_one_face cvtColor detectMultiScale crop_resize
                  (face_engine a) event.1.1 (registration_name a) event.2
                  Hone) as Hok.
    simpl in Hrec. rewrite Hok in Hrec. simpl in Hrec. rewrite <- Heng in Hrec.
    simpl foldl.
    set (a1 := (camera_loop_body _ _ _ _ a event.1.1 event.1.2 event.2).1) in *.
    simpl length in Hle.
    destruct events as [| event' events'].
    + simpl. rewrite Hcount, Hmode', Hname, Hrec.
      repeat split; try lia; try done.
    + assert (Hlt1 : (registration_count a1 < target_samples a1)%Z).
      { rewrite Hcount, Htarget. simpl length in Hle. lia. }
      assert (Hmode1 : registration_mode a1 = true).
      { rewrite Hmode'. apply negb_true_iff, Z.leb_gt. lia. }
      destruct (IH a1 Hmode1 Hlt1) as (Hc & Hm & Hr & Hn).
      { rewrite Hcount, Htarget. simpl length in Hle |- *. lia. }
      { by rewrite Hdel, Hlast. }
      rewrite Hc, Hr, Hn, Hcount, Hrec, Hname. rewrite Hm, Hcount, Htarget.
      simpl length. repeat split; try lia; try done.
Qed.

End EnrollmentRun.

(** ** The camera *)

Section CameraFacts.
Context {Device RawFrame Frame : Type}.
Variable VideoCapture : Z → Device.
Variable isOpened : Device → bool.
Variable set_property : Device → string → Z → Device.
Variable read : Device → Device * option RawFrame.
Variable flip_horizontal : RawFrame → RawFrame.
Variable cvtColor_BGR2RGB : RawFrame → Frame.

Import Camera.

(** X26. An active camera handler holds a device: true of a new
    handler and kept by [start], [stop], [read_frame] and
    [get_bgr_frame]. Moreover [read_frame] reports success exactly when
    it returns a frame, only on an active handler, never changes
    [is_active], and on an active handler returns the device's next
    frame mirrored and converted, the device having advanced. *)
Theorem active_camera_has_device :
  (∀ index w h, has_device (init (Device := Device) index w h))
  ∧ (∀ cam, has_device cam →
       has_device (start VideoCapture isOpened set_property cam).1
       ∧ has_device (stop cam)
       ∧ has_device (read_frame read flip_horizontal cvtColor_BGR2RGB cam).1
       ∧ has_device (get_bgr_frame read flip_horizontal cam).1)
  ∧ (∀ cam,
       let reading := read_frame read flip_horizontal cvtColor_BGR2RGB cam in
       (reading.2.1 = true ↔ is_Some reading.2.2)
       ∧ (reading.2.1 = true → is_active cam = true)
       ∧ is_active reading.1 = is_active cam
       ∧ (has_device cam → is_active cam = true →
          ∃ device, capture cam = Some device
                    ∧ capture reading.1 = Some (read device).1
                    ∧ reading.2.2
                      = (λ f, cvtColor_BGR2RGB (flip_horizontal f))
                          <$> (read device).2)).
Proof.
  split; [done |]. split.
  - intros cam Hdev. repeat split.
    + unfold start. destruct (is_active cam) eqn:Ha; [done |].
      destruct (isOpened _); simpl; intros ?; by eexists.
    + done.
    + unfold read_frame.
      destruct (is_active cam) eqn:Ha, (capture cam) eqn:Hc; try done.
      destruct (read d) as [d' [f |]]; simpl; intros _; by eexists.
    + unfold get_bgr_frame.
      destruct (is_active cam) eqn:Ha, (capture cam) eqn:Hc; try done.
      destruct (read d) as [d' [f |]]; simpl; intros _; by eexists.
  - intros cam reading. subst reading. unfold read_frame.
    destruct (is_active cam) eqn:Ha, (capture cam) as [d |] eqn:Hc; simpl.
    + destruct (read d) as [d' [f |]] eqn:Hr; simpl;
        (repeat split; try done; try (by intros [? ?]); try (by eexists));
        intros _ _; exists d; by rewrite Hr.
    + repeat split; try done; try (by intros [? ?]).
      intros Hdev _. destruct (Hdev Ha) as [? H]. by rewrite Hc in H.
    + repeat split; try done; by intros [? ?].
    + repeat split; try done; by intros [? ?].
Qed.

Lemma active_read (cam : CameraHandler Device) :
  is_active (read_frame read flip_horizontal cvtColor_BGR2RGB cam).1
  = is_active cam.
Proof.
  unfold read_frame.
  destruct (is_active cam) eqn:Ha, (capture cam) as [d |]; try done.
  by destruct (read d) as [d' [f |]].
Qed.

(** X27. [start] returns the value of [is_active] it leaves behind; on
    an active handler it does nothing, in particular after a start that
    succeeded; on an inactive one it opens the device of the handler's
    index, keeps it whether or not it opened, and succeeds exactly when
    it opened. After [stop], [read_frame] fails without touching the
    handler, [is_running] is false and a second [stop] changes nothing. *)
Theorem camera_start_stop (cam : CameraHandler Device) :
  let started := start VideoCapture isOpened set_property cam in
  started.2 = is_active started.1
  ∧ (is_active cam = true → started = (cam, true))
  ∧ (started.2 = true →
     start VideoCapture isOpened set_property started.1 = (started.1, true))
  ∧ (is_active cam = false →
     started.2 = isOpened (VideoCapture (camera_index cam))
     ∧ is_Some (capture started.1))
  ∧ read_frame read flip_horizontal cvtColor_BGR2RGB (stop cam)
    = (stop cam, (false, None))
  ∧ stop (stop cam) = stop cam
  ∧ is_running (stop cam) = false
  ∧ camera_index started.1 = camera_index cam
  ∧ (width started.1, height started.1) = (width cam, height cam).
Proof.
  intros started. subst started. unfold start.
  destruct (is_active cam) eqn:Ha.
  - simpl. rewrite Ha. repeat split; done.
  - destruct (isOpened (VideoCapture (camera_index cam))) eqn:Hopen; simpl;
      repeat split; try done; by eexists.
Qed.

(** X28. [read_frame] is [get_bgr_frame] followed by the conversion to
    RGB: same handler afterwards, same success flag, and the frame of
    the one is the converted frame of the other. *)
Theorem read_frame_converts_bgr_frame (cam : CameraHandler Device) :
  read_frame read flip_horizontal cvtColor_BGR2RGB cam
  = ((get_bgr_frame read flip_horizontal cam).1,
     ((get_bgr_frame read flip_horizontal cam).2.1,
      cvtColor_BGR2RGB <$> (get_bgr_frame read flip_horizontal cam).2.2)).
Proof.
  unfold read_frame, get_bgr_frame.
  destruct (is_active cam), (capture cam) as [d |]; try done.
  by destruct (read d) as [d' [f |]].
Qed.

End CameraFacts.

(** ** The session: camera switch, loop, name dialog *)

Section SessionFacts.
Context {Device RawFrame Frame GrayImg Patch : Type}.
Variable VideoCapture : Z → Device.
Variable isOpened : Device → bool.
Variable set_property : Device → string → Z → Device.
Variable read : Device → Device * option RawFrame.
Variable flip_horizontal : RawFrame → RawFrame.
Variable cvtColor_BGR2RGB : RawFrame → Frame.
Variable cvtColor : Frame → GrayImg.
Variable detectMultiScale : GrayImg → list (Z * Z * Z * Z).
Variable crop_resize : GrayImg → Z * Z * Z * Z → Patch.
Variable predict : list Patch → list Z → Patch → Z * Q.
Variable isspace_char : ascii → bool.
Variable isalnum_char : ascii → bool.

Import Main.

(** X25. Switching the camera. With [camera_active] in step with the
    handler's [is_active], both [toggle_camera] and a pass of the loop
    keep them in step. [toggle_camera] never touches the application
    state, so an enrollment under way survives the camera being
    switched off and on. Switching off releases the device and makes
    the next pass do nothing; switching on succeeds exactly when the
    device opens. A pass on a switched-off camera does nothing, and a
    pass that processes no frame leaves the application state alone. *)
Theorem toggle_camera_keeps_enrollment (s : Session Device Patch)
    (current_time : Q) (now : string) :
  camera_active s = Camera.is_active (camera s) →
  let toggled := toggle_camera VideoCapture isOpened set_property s in
  let pass :=
    camera_loop_pass read flip_horizontal cvtColor_BGR2RGB
      cvtColor detectMultiScale crop_resize predict s current_time now in
  app toggled = app s
  ∧ running toggled = running s
  ∧ camera_active toggled = Camera.is_active (camera toggled)
  ∧ camera_active pass.1 = Camera.is_active (camera pass.1)
  ∧ (camera_active s = true →
     camera_active toggled = false
     ∧ Camera.capture (camera toggled) = None
     ∧ camera_loop_pass read flip_horizontal cvtColor_BGR2RGB
         cvtColor detectMultiScale crop_resize predict
         toggled current_time now = (toggled, None))
  ∧ (camera_active s = false →
     camera_active toggled
     = isOpened (VideoCapture (Camera.camera_index (camera s)))
     ∧ pass = (s, None))
  ∧ (pass.2 = None → app pass.1 = app s).
Proof.
  intros Hsync toggled pass. subst toggled pass.
  unfold toggle_camera, camera_loop_pass.
  destruct (camera_active s) eqn:Hactive; simpl.
  - repeat split; try done.
    + destruct (running s); simpl; [| congruence].
      pose proof (active_read read flip_horizontal cvtColor_BGR2RGB (camera s))
        as Hread.
      destruct (Camera.read_frame _ _ _ _) as [cam [[|] [f |]]];
        simpl in *; try congruence.
      destruct (App.camera_loop_body _ _ _ _ _ _ _ _); simpl; congruence.
    + destruct (running s); simpl; [| done].
      destruct (Camera.read_frame _ _ _ _) as [cam [[|] [f |]]]; try done.
      by destruct (App.camera_loop_body _ _ _ _ _ _ _ _).
  - unfold Camera.start. rewrite <- Hsync.
    destruct (isOpened _) eqn:Hopen; simpl; repeat split; try done;
      by rewrite Hactive.
Qed.

End SessionFacts.

(** ** The name dialog *)

Section DialogFacts.
Context {Patch : Type}.
Variable isspace_char : ascii → bool.
Variable isalnum_char : ascii → bool.

Import Main.

Lemma isalnum_spec (s : string) :
  isalnum isalnum_char s = true
  ↔ String.list_ascii_of_string s ≠ []
    ∧ ∀ c, c ∈ String.list_ascii_of_string s → isalnum_char c = true.
Proof.
  unfold isalnum.
  destruct (String.list_ascii_of_string s) as [| c l] eqn:Hl.
  - split; [done | by intros [? _]].
  - rewrite forallb_forall. split.
    + intros Hall. split; [done |]. intros x Hx. apply Hall.
      by apply list_elem_of_In.
    + intros [_ Hall] x Hx. apply Hall. by apply list_elem_of_In.
Qed.

Lemma remove_char_chars (c : ascii) (s : string) :
  String.list_ascii_of_string (remove_char c s)
  = filter (λ x, x ≠ c) (String.list_ascii_of_string s).
Proof.
  unfold remove_char. apply String.list_ascii_of_string_of_list_ascii.
Qed.

(** X24. The name dialog. With [name] the entry stripped of surrounding
    whitespace, [start_registration] starts an enrollment exactly when
    [name] has a character other than underscore and hyphen, all its
    characters are alphanumeric, underscore or hyphen, and, if the
    person exists, the user agreed to add samples. It then sets the
    mode to registration, the count to 0 and the name to [name]; in
    every other case the application state is untouched. It is declined
    exactly when the name is valid, the person exists and the user did
    not agree. *)
Theorem start_registration_accepts (a : App.FacialRecognitionApp Patch)
    (entry : string) (add_more : bool) :
  let name := strip isspace_char entry in
  let chars := String.list_ascii_of_string name in
  let known :=
    Database.person_exists (LBPH.db_manager (App.face_engine a)) name in
  let result := start_registration isspace_char isalnum_char
                  a entry add_more in
  (result.2 = Started ↔
   (∃ c, c ∈ chars ∧ c ≠ "_"%char ∧ c ≠ "-"%char)
   ∧ (∀ c, c ∈ chars →
        c = "_"%char ∨ c = "-"%char ∨ isalnum_char c = true)
   ∧ (known = true → add_more = true))
  ∧ (result.2 = Started →
     result.1 = App.start_registration a name
     ∧ App.registration_mode result.1 = true
     ∧ App.registration_count result.1 = 0%Z
     ∧ App.registration_name result.1 = name)
  ∧ (result.2 ≠ Started → result.1 = a)
  ∧ (result.2 = Declined ↔
     (∃ c, c ∈ chars ∧ c ≠ "_"%char ∧ c ≠ "-"%char)
     ∧ (∀ c, c ∈ chars →
          c = "_"%char ∨ c = "-"%char ∨ isalnum_char c = true)
     ∧ known = true ∧ add_more = false).
Proof.
  intros name chars known result.
  assert (Hvalid :
    isalnum isalnum_char (remove_char "-" (remove_char "_" name)) = true
    ↔ (∃ c, c ∈ chars ∧ c ≠ "_"%char ∧ c ≠ "-"%char)
      ∧ (∀ c, c ∈ chars →
           c = "_"%char ∨ c = "-"%char ∨ isalnum_char c = true)).
  { rewrite isalnum_spec, !remove_char_chars. fold chars.
    rewrite list_filter_filter. split.
    - intros [Hne Hall]. split.
      + destruct (filter _ chars) as [| c l] eqn:Hf; [done |].
        assert (Hc : c ∈ filter (λ x, x ≠ "-"%char ∧ x ≠ "_"%char) chars)
          by (rewrite Hf; left).
        apply list_elem_of_filter in Hc as [[? ?] ?]. by exists c.
      + intros c Hc.
        destruct (decide (c = "_"%char)) as [| H1]; [by left |].
        destruct (decide (c = "-"%char)) as [| H2]; [by right; left |].
        right; right. apply Hall. by apply list_elem_of_filter.
    - intros [(c & Hc & H1 & H2) Hall]. split.
      + intros Hnil.
        assert (Hin : c ∈ filter (λ x, x ≠ "-"%char ∧ x ≠ "_"%char) chars)
          by (by apply list_elem_of_filter).
        rewrite Hnil in Hin. by apply elem_of_nil in Hin.
      + intros x Hx. apply list_elem_of_filter in Hx as [[? ?] Hx].
        by destruct (Hall x Hx) as [? | [? | ?]]. }
  assert (Hempty : name = "" → ¬ ∃ c, c ∈ chars ∧ c ≠ "_"%char ∧ c ≠ "-"%char).
  { intros Hn (c & Hc & _). subst chars. rewrite Hn in Hc.
    by apply elem_of_nil in Hc. }
  subst result. unfold start_registration. fold name. fold known.
  case_bool_decide as Hname.
  { simpl. repeat split; try done; intros [? _]; by destruct (Hempty Hname). }
  destruct (isalnum _ _) eqn:Hal; simpl.
  - destruct (proj1 Hvalid eq_refl) as [Hex Hall].
    destruct known eqn:Hknown, add_more; simpl;
      repeat split; try done; try (by intros (_ & _ & ?));
      try (intros (_ & _ & H); by specialize (H eq_refl));
      try (by intros (_ & _ & _ & ?)); try (by intros (_ & _ & ? & _)).
  - assert (Hno : ¬ ((∃ c, c ∈ chars ∧ c ≠ "_"%char ∧ c ≠ "-"%char)
                     ∧ (∀ c, c ∈ chars →
                          c = "_"%char ∨ c = "-"%char
                          ∨ isalnum_char c = true))).
    { intros H. by apply Hvalid in H. }
    repeat split; try done; intros (? & ? & _); by destruct Hno.
Qed.

End DialogFacts.

(** ** The properties above on concrete inputs *)

Lemma two_persons_wf : Database.db_wf Bench.two_persons.
Proof.
  split; simpl.
  - apply NoDup_cons_2; [| apply NoDup_singleton].
    intros H. apply list_elem_of_singleton in H. discriminate.
  - apply NoDup_cons_2; [| apply NoDup_singleton].
    intros H. apply list_elem_of_singleton in H. discriminate.
  - repeat constructor; simpl; lia.
  - repeat constructor; simpl; lia.
Qed.

Lemma stored_record_read_back_witness :
  NoDup (Database.p_id <$> Database.persons Bench.two_persons)
  ∧ Database.PersonRow 2 "bob" "2024-01-02T10:00:00"
      ∈ Database.persons Bench.two_persons
  ∧ Database.get_person_encodings
      (Database.add_face_encoding Bench.two_persons 2 7 "2024-01-03T10:00:00")
      "bob" = [5; 7].
Proof.
  assert (H1 : NoDup (Database.p_id <$> Database.persons Bench.two_persons))
    by apply two_persons_wf.
  assert (H2 : Database.PersonRow 2 "bob" "2024-01-02T10:00:00"
                 ∈ Database.persons Bench.two_persons)
    by (right; left).
  split; [exact H1 |]. split; [exact H2 |].
  exact (proj1 (stored_record_read_back Bench.two_persons _ 7
                  "2024-01-03T10:00:00" H1 H2)).
Defined.

Lemma readded_person_starts_empty_witness :
  Database.db_wf Bench.two_persons
  ∧ (Database.add_person
       (Database.delete_person Bench.two_persons "alice").1
       "alice" "2024-01-03T10:00:00").2 = Some 3%Z
  ∧ Database.get_person_encodings
      (Database.add_person
         (Database.delete_person Bench.two_persons "alice").1
         "alice" "2024-01-03T10:00:00").1 "alice" = [].
Proof.
  split; [exact two_persons_wf |].
  destruct (readded_person_starts_empty Bench.two_persons "alice"
              "2024-01-03T10:00:00" two_persons_wf)
    as (Hid & _ & Hnone & _).
  split; [exact Hid | exact Hnone].
Defined.

Lemma recognized_locations_witness :
  Embedding.recognize_faces
    Sample.face_locations Sample.face_encodings Sample.dist
    Bench.two_persons_engine [(4%nat, Some 5); (9%nat, Some 2)] "hog"
  = Some [(4%nat, "bob", 100); (9%nat, Unknown, 0)]
  ∧ (λ r : nat * string * Q, r.1.1)
      <$> [(4%nat, "bob", 100); (9%nat, Unknown, 0)]
    = [4%nat; 9%nat].
Proof.
  assert (H : Embedding.recognize_faces
                Sample.face_locations Sample.face_encodings Sample.dist
                Bench.two_persons_engine
                [(4%nat, Some 5); (9%nat, Some 2)] "hog"
              = Some [(4%nat, "bob", 100); (9%nat, Unknown, 0)])
    by reflexivity.
  split; [exact H |].
  exact (proj1 (recognized_locations
                  Sample.face_locations Sample.face_encodings Sample.dist
                  Bench.two_persons_engine _ "hog" _ H)).
Defined.

Lemma sample_dist_self (a : Q) : Sample.dist a a == 0.
Proof.
  unfold Sample.dist. assert (H : a - a == 0) by ring.
  rewrite H. reflexivity.
Qed.

Lemma registered_face_is_recognized_witness :
  (∀ a b, 0 <= Sample.dist a b)
  ∧ (∀ a, Sample.dist a a == 0)
  ∧ 0 <= Embedding.tolerance Bench.two_persons_engine
  ∧ (Embedding.register_face Sample.face_locations Sample.face_encodings
       Bench.two_persons_engine [(4%nat, Some 3)] "carol"
       "2024-01-03T10:00:00").2.1 = true.
Proof.
  assert (Htol : 0 <= Embedding.tolerance Bench.two_persons_engine)
    by (vm_compute; discriminate).
  split; [exact sample_dist_nonneg |].
  split; [exact sample_dist_self |]. split; [exact Htol |].
  exact (proj1 (registered_face_is_recognized
                  Sample.face_locations Sample.face_encodings Sample.dist
                  Bench.two_persons_engine [(4%nat, Some 3)] "carol"
                  "2024-01-03T10:00:00" 4%nat 3
                  sample_dist_nonneg sample_dist_self Htol eq_refl eq_refl)).
Defined.

Lemma delete_person_never_recognized_witness :
  (Embedding.delete_person Bench.two_persons_engine "bob").2 = true
  ∧ "bob" ≠ Unknown
  ∧ (4%nat, "bob", 100 : Q)
      ∉ [(4%nat, Unknown, 0 : Q)].
Proof.
  assert (H1 : (Embedding.delete_person Bench.two_persons_engine "bob").2
               = true) by reflexivity.
  assert (H2 : "bob" ≠ Unknown) by discriminate.
  split; [exact H1 |]. split; [exact H2 |].
  exact (delete_person_never_recognized
           Sample.face_locations Sample.face_encodings Sample.dist
           Bench.two_persons_engine "bob" [(4%nat, Some 5)] "hog"
           [(4%nat, Unknown, 0)] 4%nat 100 H1 H2 eq_refl).
Defined.

Lemma classifier_deleted_never_recognized_witness :
  (LBPH.delete_person Sample.alice_once "alice").2 = true
  ∧ "alice" ≠ Unknown
  ∧ ((0, 130, 100, 30)%Z, "alice", 70 : Q)
      ∉ LBPH.recognize_faces Sample.cvtColor Sample.detectMultiScale
          Sample.crop_resize Sample.predict
          (LBPH.delete_person Sample.alice_once "alice").1
          [(30, 0, 100, 100)%Z] "hog".
Proof.
  assert (H1 : (LBPH.delete_person Sample.alice_once "alice").2 = true)
    by reflexivity.
  assert (H2 : "alice" ≠ Unknown) by discriminate.
  split; [exact H1 |]. split; [exact H2 |].
  exact (classifier_deleted_never_recognized
           Sample.cvtColor Sample.detectMultiScale Sample.crop_resize
           Sample.predict Sample.alice_once "alice" [(30, 0, 100, 100)%Z]
           "hog" (0, 130, 100, 30)%Z 70 H1 H2).
Defined.

Lemma two_persons_engine_in_sync : Embedding.in_sync Bench.two_persons_engine.
Proof. done. Qed.

Lemma register_face_statistics_witness :
  Database.db_wf (Embedding.db_manager Bench.two_persons_engine)
  ∧ Embedding.in_sync Bench.two_persons_engine
  ∧ Embedding.total_encodings
      (Embedding.get_statistics
         (Embedding.register_face Sample.face_locations Sample.face_encodings
            Bench.two_persons_engine [(4%nat, Some 3)] "bob"
            "2024-01-03T10:00:00").1) = 4%nat.
Proof.
  split; [exact two_persons_wf |].
  split; [exact two_persons_engine_in_sync |].
  exact (proj1 (register_face_statistics
                  Sample.face_locations Sample.face_encodings
                  Bench.two_persons_engine [(4%nat, Some 3)] "bob"
                  "2024-01-03T10:00:00" two_persons_wf
                  two_persons_engine_in_sync eq_refl)).
Defined.

Lemma register_face_invariant_witness :
  Database.db_wf (Embedding.db_manager Bench.two_persons_engine)
  ∧ Embedding.in_sync Bench.two_persons_engine
  ∧ Embedding.in_sync
      (Embedding.register_face Sample.face_locations Sample.face_encodings
         Bench.two_persons_engine [(4%nat, Some 3)] "carol"
         "2024-01-03T10:00:00").1.
Proof.
  split; [exact two_persons_wf |].
  split; [exact two_persons_engine_in_sync |].
  exact (proj2 (register_face_invariant
                  Sample.face_locations Sample.face_encodings
                  Bench.two_persons_engine [(4%nat, Some 3)] "carol"
                  "2024-01-03T10:00:00" two_persons_wf
                  two_persons_engine_in_sync)).
Defined.

Lemma register_face_total_encodings_witness :
  (LBPH.register_face Sample.cvtColor Sample.detectMultiScale
     Sample.crop_resize Sample.alice_once [(32, 0, 100, 100)%Z] "bob"
     "2024-01-03T10:00:00").2.1 = true
  ∧ LBPH.total_encodings
      (LBPH.get_statistics
         (LBPH.register_face Sample.cvtColor Sample.detectMultiScale
            Sample.crop_resize Sample.alice_once [(32, 0, 100, 100)%Z] "bob"
            "2024-01-03T10:00:00").1)
    = LBPH.total_persons
        (LBPH.get_statistics
           (LBPH.register_face Sample.cvtColor Sample.detectMultiScale
              Sample.crop_resize Sample.alice_once [(32, 0, 100, 100)%Z] "bob"
              "2024-01-03T10:00:00").1).
Proof.
  assert (H : (LBPH.register_face Sample.cvtColor Sample.detectMultiScale
                 Sample.crop_resize Sample.alice_once [(32, 0, 100, 100)%Z]
                 "bob" "2024-01-03T10:00:00").2.1 = true) by reflexivity.
  split; [exact H |].
  exact (register_face_total_encodings
           Sample.cvtColor Sample.detectMultiScale Sample.crop_resize
           Sample.alice_once [(32, 0, 100, 100)%Z] "bob"
           "2024-01-03T10:00:00" H).
Defined.

Lemma debounce_holds_back_witness :
  App.registration_mode (Sample.capturing 3 10) = true
  ∧ (10 + (2 # 10)) - App.last_capture_time (Sample.capturing 3 10)
    < App.capture_delay (Sample.capturing 3 10)
  ∧ App.camera_loop_body Sample.cvtColor Sample.detectMultiScale
      Sample.crop_resize Sample.predict (Sample.capturing 3 10)
      [(30, 0, 100, 100)%Z] (10 + (2 # 10)) "2024-01-03T10:00:00"
    = (Sample.capturing 3 10, App.Registration None).
Proof.
  assert (H1 : App.registration_mode (Sample.capturing 3 10) = true)
    by reflexivity.
  assert (H2 : (10 + (2 # 10)) - App.last_capture_time (Sample.capturing 3 10)
               < App.capture_delay (Sample.capturing 3 10))
    by (vm_compute; reflexivity).
  split; [exact H1 |]. split; [exact H2 |].
  exact (debounce_holds_back Sample.cvtColor Sample.detectMultiScale
           Sample.crop_resize Sample.predict (Sample.capturing 3 10)
           [(30, 0, 100, 100)%Z] (10 + (2 # 10)) "2024-01-03T10:00:00" H1 H2).
Defined.

Lemma registration_count_bounded_witness :
  (App.registration_count (Sample.capturing 9 0)
   ≤ App.target_samples (Sample.capturing 9 0))%Z
  ∧ (App.registration_count
       (App.camera_loop_body Sample.cvtColor Sample.detectMultiScale
          Sample.crop_resize Sample.predict (Sample.capturing 9 0)
          [(30, 0, 100, 100)%Z] 1 "2024-01-03T10:00:00").1
     ≤ 10)%Z.
Proof.
  assert (H : (App.registration_count (Sample.capturing 9 0)
               ≤ App.target_samples (Sample.capturing 9 0))%Z)
    by (simpl; lia).
  split; [exact H |].
  destruct (registration_count_bounded Sample.cvtColor Sample.detectMultiScale
              Sample.crop_resize Sample.predict (Sample.capturing 9 0)
              [(30, 0, 100, 100)%Z] 1 "2024-01-03T10:00:00" H)
    as (_ & Hle & Htarget & _).
  rewrite Htarget in Hle. exact Hle.
Defined.

Lemma enrollment_completes_witness :
  App.registration_mode (Sample.capturing 8 0) = true
  ∧ (App.registration_count (Sample.capturing 8 0)
     < App.target_samples (Sample.capturing 8 0))%Z
  ∧ App.registration_mode
      (Main.process_frames Sample.cvtColor Sample.detectMultiScale
         Sample.crop_resize Sample.predict (Sample.capturing 8 0)
         [([(30, 0, 100, 100)%Z], 1, "2024-01-03T10:00:00");
          ([(31, 0, 100, 100)%Z], 3 # 2, "2024-01-03T10:00:01")])
    = false.
Proof.
  assert (H1 : App.registration_mode (Sample.capturing 8 0) = true)
    by reflexivity.
  assert (H2 : (App.registration_count (Sample.capturing 8 0)
                < App.target_samples (Sample.capturing 8 0))%Z)
    by (simpl; lia).
  split; [exact H1 |]. split; [exact H2 |].
  destruct (enrollment_completes Sample.cvtColor Sample.detectMultiScale
              Sample.crop_resize Sample.predict
              [([(30, 0, 100, 100)%Z], 1, "2024-01-03T10:00:00");
               ([(31, 0, 100, 100)%Z], 3 # 2, "2024-01-03T10:00:01")]
              (Sample.capturing 8 0) H1 H2)
    as (_ & Hidle & _).
  - simpl. lia.
  - simpl. repeat split; vm_compute; discriminate.
  - apply Hidle. reflexivity.
Defined.

Lemma toggle_camera_keeps_enrollment_witness :
  Main.camera_active Bench.paused
  = Camera.is_active (Main.camera Bench.paused)
  ∧ Main.camera_active
      (Main.toggle_camera Bench.VideoCapture Bench.isOpened Bench.set_property
         Bench.paused) = true
  ∧ Main.app
      (Main.toggle_camera Bench.VideoCapture Bench.isOpened Bench.set_property
         Bench.paused) = Main.app Bench.paused.
Proof.
  assert (H : Main.camera_active Bench.paused
              = Camera.is_active (Main.camera Bench.paused))
    by reflexivity.
  split; [exact H |].
  destruct (toggle_camera_keeps_enrollment
              Bench.VideoCapture Bench.isOpened Bench.set_property Bench.read
              Bench.flip_horizontal Bench.cvtColor_BGR2RGB
              Sample.cvtColor Sample.detectMultiScale Sample.crop_resize
              Sample.predict Bench.paused 11 "2024-01-03T10:00:00" H)
    as (Happ & _ & _ & _ & _ & Hoff & _).
  split; [| exact Happ].
  destruct (Hoff eq_refl) as [-> _]. reflexivity.
Defined.
